(** * wbor-postgres: the broker-to-Postgres delivery pipeline

    A shallow embedding of [app.py], [database.py] and [handlers.py].

    The JSON decoder, psycopg, pika and the clock are libraries outside the
    repository.  They enter the model in two ways.  Every call the code
    makes on them is recorded, in program order, in a trace of [event]s.
    The outcome of a call that the code guards with an [except] clause, or
    whose result it branches on, is supplied by an environment: [json.loads],
    [psycopg.connect], [conn.cursor], [cursor.execute] and [conn.commit] per
    delivery, the connection and topology calls and the end of
    [start_consuming] per iteration of a consumer loop.  Logging, the channel
    methods called from inside a callback and [close] are recorded and
    return.

    Python's [try]/[except]/[finally] is modelled by a small state and
    exception monad in which the trace survives a raise, and [except]
    clauses match by class through the class hierarchy. *)

From Stdlib Require Import String Ascii List ZArith NArith Bool Lia.
From Stdlib Require Import Strings.Byte.
From Stdlib Require Import DecimalString DecimalNat.
Import ListNotations.
Open Scope string_scope.
Set Warnings "-register-all".

(** ** Python exceptions and the class hierarchy used by [except] clauses *)

Inductive exn : Type :=
| BaseException
| KeyboardInterrupt
| GeneratorExit
| Exception
| LookupError
| KeyError
| ValueError
| JSONDecodeError        (* json.JSONDecodeError, a ValueError *)
| UnicodeDecodeError     (* raised by json.loads on bytes that are not UTF-8 *)
| AttributeError
| TypeError
| OverflowError
| OSError
| PsycopgError           (* psycopg.Error *)
| InterfaceError         (* psycopg.InterfaceError *)
| DatabaseError          (* psycopg.errors.DatabaseError *)
| OperationalError
| IntegrityError
| DataError
| ProgrammingError
| AMQPError              (* pika.exceptions.AMQPError *)
| AMQPConnectionError    (* pika.exceptions.AMQPConnectionError *)
| AMQPChannelError.

(** The direct base class of every class but the root. *)
Definition base (c : exn) : option exn :=
  match c with
  | BaseException => None
  | KeyboardInterrupt | GeneratorExit | Exception => Some BaseException
  | LookupError | ValueError | AttributeError | TypeError
  | OverflowError | OSError | PsycopgError | AMQPError => Some Exception
  | KeyError => Some LookupError
  | JSONDecodeError | UnicodeDecodeError => Some ValueError
  | InterfaceError | DatabaseError => Some PsycopgError
  | OperationalError | IntegrityError | DataError | ProgrammingError =>
      Some DatabaseError
  | AMQPConnectionError | AMQPChannelError => Some AMQPError
  end.

Definition exn_eqb (a b : exn) : bool :=
  match a, b with
  | BaseException, BaseException | KeyboardInterrupt, KeyboardInterrupt
  | GeneratorExit, GeneratorExit | Exception, Exception
  | LookupError, LookupError | KeyError, KeyError
  | ValueError, ValueError | JSONDecodeError, JSONDecodeError
  | UnicodeDecodeError, UnicodeDecodeError | AttributeError, AttributeError
  | TypeError, TypeError | OverflowError, OverflowError | OSError, OSError
  | PsycopgError, PsycopgError | InterfaceError, InterfaceError
  | DatabaseError, DatabaseError | OperationalError, OperationalError
  | IntegrityError, IntegrityError | DataError, DataError
  | ProgrammingError, ProgrammingError | AMQPError, AMQPError
  | AMQPConnectionError, AMQPConnectionError
  | AMQPChannelError, AMQPChannelError => true
  | _, _ => false
  end.

(** [subclass n e c]: [c] is reached from [e] in at most [n] steps upwards. *)
Fixpoint subclass (n : nat) (e c : exn) : bool :=
  exn_eqb e c ||
  match n with
  | O => false
  | S n' => match base e with
            | Some b => subclass n' b c
            | None => false
            end
  end.

(** The hierarchy above is four levels deep. *)
Definition isinstance (e c : exn) : bool := subclass 4 e c.

(** ** Python values *)

(** The values a decoded message can hold, and the datetimes the handlers
    build from them.  A float is kept as its IEEE-754 binary64 bit pattern,
    which is all that truthiness needs. *)
Inductive value : Type :=
| VNone
| VBool (b : bool)
| VInt (z : Z)
| VFloat (bits : Z)
| VStr (s : string)
| VList (l : list value)
| VDict (d : list (string * value))
| VDatetime (t : Z).

(** [bool(v)]. *)
Definition truthy (v : value) : bool :=
  match v with
  | VNone => false
  | VBool b => b
  | VInt z => negb (z =? 0)%Z
  | VFloat bits => negb (Z.land bits 0x7FFFFFFFFFFFFFFF =? 0)%Z
  | VStr s => negb (String.eqb s EmptyString)
  | VList l => match l with [] => false | _ => true end
  | VDict d => match d with [] => false | _ => true end
  | VDatetime _ => true
  end.

(** Lookup in a dict kept as an association list. *)
Fixpoint lookup (k : string) (d : list (string * value)) : option value :=
  match d with
  | [] => None
  | (k', v) :: d' => if String.eqb k k' then Some v else lookup k d'
  end.

(** ** Results and the effect monad *)

Inductive result (A : Type) : Type :=
| Return (a : A)
| Raise (e : exn).
Arguments Return {A} a.
Arguments Raise {A} e.

Definition rbind {A B} (r : result A) (k : A -> result B) : result B :=
  match r with
  | Return a => k a
  | Raise e => Raise e
  end.

(** [message.get(key)]: only a dict has the method. *)
Definition py_get (message : value) (key : string) : result value :=
  match message with
  | VDict d => match lookup key d with
               | Some v => Return v
               | None => Return VNone
               end
  | _ => Raise AttributeError
  end.

(** [message.get(key, default)]. *)
Definition py_get_default (message : value) (key : string) (default : value)
  : result value :=
  match message with
  | VDict d => match lookup key d with
               | Some v => Return v
               | None => Return default
               end
  | _ => Raise AttributeError
  end.

Inductive level : Type := DEBUG | INFO | ERROR | CRITICAL.

(** Everything the code does to the outside world, as calls in order. *)
Inductive event : Type :=
| Log (lvl : level) (template : string)
(* psycopg *)
| PgConnect
| PgCursor
| PgExecute (query : string) (params : list value)
| PgCursorClose
| PgCommit
| PgClose
(* pika channel methods available to a callback *)
| BasicAck (delivery_tag : N)
| BasicNack (delivery_tag : N) (requeue : bool)
| BasicReject (delivery_tag : N) (requeue : bool)
| BasicPublish (exchange routing_key : string) (body : list byte)
(* pika connection and topology *)
| BlockingConnection (host user pass : string)
| Channel
| ExchangeDeclare (exchange exchange_type : string)
| QueueDeclare (queue : string) (durable : bool)
    (arguments : list (string * value))
| QueueBind (exchange queue : string)
| BasicConsume (queue on_message_callback : string) (auto_ack : bool)
| StartConsuming
(* time *)
| Sleep (seconds : Z).

(** The local variable holding the psycopg connection: [None], or a
    connection object with its [closed] attribute. *)
Inductive pgconn : Type :=
| NoConnection
| Connection (closed : bool).

Record world : Type := mkWorld {
  events : list event;
  connection : pgconn
}.

Definition init : world := mkWorld [] NoConnection.

Definition M (A : Type) : Type := world -> result A * world.

Definition ret {A} (a : A) : M A := fun w => (Return a, w).
Definition raise {A} (e : exn) : M A := fun w => (Raise e, w).
Definition bind {A B} (m : M A) (k : A -> M B) : M B :=
  fun w => match m w with
           | (Return a, w') => k a w'
           | (Raise e, w') => (Raise e, w')
           end.
Definition lift {A} (r : result A) : M A := fun w => (r, w).

Declare Scope py_scope.
Delimit Scope py_scope with py.
Notation "x <- m ;; k" := (bind m (fun x => k))
  (at level 61, m at next level, right associativity) : py_scope.
Notation "m ;; k" := (bind m (fun _ => k))
  (at level 61, right associativity) : py_scope.
Open Scope py_scope.

(** [try: m  except <classes matched by handles>: handler]. *)
Definition try_except {A} (m : M A) (handles : exn -> bool)
  (handler : exn -> M A) : M A :=
  fun w => match m w with
           | (Return a, w') => (Return a, w')
           | (Raise e, w') => if handles e then handler e w' else (Raise e, w')
           end.

(** [try: m  finally: cleanup]: the cleanup always runs; an exception of the
    cleanup replaces the outcome of [m]. *)
Definition try_finally {A} (m : M A) (cleanup : M unit) : M A :=
  fun w => match m w with
           | (r, w') => match cleanup w' with
                        | (Return _, w'') => (r, w'')
                        | (Raise e, w'') => (Raise e, w'')
                        end
           end.

Definition emit (e : event) : M unit :=
  fun w => (Return tt, mkWorld (events w ++ [e]) (connection w)).

Definition log (lvl : level) (template : string) : M unit :=
  emit (Log lvl template).

(** A recorded external call whose outcome the environment decides. *)
Definition call (e : event) (outcome : option exn) : M unit :=
  emit e ;;
  match outcome with
  | None => ret tt
  | Some x => raise x
  end.

Definition set_connection (c : pgconn) : M unit :=
  fun w => (Return tt, mkWorld (events w) c).

Definition get_connection : M pgconn :=
  fun w => (Return (connection w), w).

Declare Scope res_scope.
Delimit Scope res_scope with res.
Notation "x <- m ;; k" := (rbind m (fun x => k))
  (at level 61, m at next level, right associativity) : res_scope.
Notation "' pat <- m ;; k" := (rbind m (fun x => match x with pat => k end))
  (at level 61, pat pattern, m at next level, right associativity) : res_scope.

(** ** Strings *)

Definition nl : string := String "010"%char EmptyString.
Definition dq : string := String "034"%char EmptyString.

(** [f'"{s}"']. *)
Definition quoted (s : string) : string := dq ++ s ++ dq.

(** [' ' * n]. *)
Fixpoint spaces (n : nat) : string :=
  match n with
  | O => EmptyString
  | S n' => String " "%char (spaces n')
  end.

(** [f"{i}"] for a non-negative integer. *)
Definition str_of_nat (i : nat) : string :=
  NilEmpty.string_of_uint (Nat.to_uint i).

(** [', '.join(['%s'] * n)]. *)
Definition placeholders (n : nat) : string :=
  String.concat ", " (repeat "%s" n).

(** [s.replace(old, new)] for a one-character [old]. *)
Fixpoint replace_char (old : ascii) (new : string) (s : string) : string :=
  match s with
  | EmptyString => EmptyString
  | String c rest =>
      (if Ascii.eqb c old then new else String c EmptyString)
      ++ replace_char old new rest
  end.

(** ** Configuration ([config.py] and the head of [app.py]) *)

Record config : Type := {
  RABBITMQ_HOST : string;
  RABBITMQ_USER : string;
  RABBITMQ_PASS : string;
  POSTGRES_QUEUE : string;
  POSTGRES_TABLE : string;
  MESSAGES_TABLE : string;
  SENT_MESSAGES_TABLE : string;
  GROUPME_TABLE : string;
  GROUPME_CALLBACK_TABLE : string
}.

(** The defaults of [os.getenv]; [POSTGRES_TABLE] has none and renders as
    [None] in an f-string when unset. *)
Definition default_config : config := {|
  RABBITMQ_HOST := "wbor-rabbitmq";
  RABBITMQ_USER := "guest";
  RABBITMQ_PASS := "guest";
  POSTGRES_QUEUE := "postgres";
  POSTGRES_TABLE := "None";
  MESSAGES_TABLE := "messages";
  SENT_MESSAGES_TABLE := "sent_sms";
  GROUPME_TABLE := "groupme";
  GROUPME_CALLBACK_TABLE := "groupme_callbacks"
|}.

(** ** The environment: outcomes of library calls *)

Record env : Type := {
  json_loads : list byte -> result value;        (* json.loads(body) *)
  json_dumps : value -> result string;           (* json.dumps(v) *)
  fromisoformat : string -> result value;        (* datetime.fromisoformat *)
  fromtimestamp : value -> result value;         (* datetime.fromtimestamp *)
  percent_format : string -> list value -> result string;
                                                 (* query % tuple(values) *)
  connect_result : option exn;                   (* psycopg.connect(...) *)
  cursor_result : option exn;                    (* conn.cursor() *)
  execute_result : string -> list value -> option exn;
                                                 (* cursor.execute(q, vs) *)
  commit_result : option exn                     (* conn.commit() *)
}.

Section Pipeline.

Variable cfg : config.
Variable E : env.

(** ** [database.py] *)

(** [psycopg.connect(...)], binding the result to [connection]. *)
Definition psycopg_connect : M unit :=
  call PgConnect (connect_result E) ;;
  set_connection (Connection false).

(** [connection.close()]. *)
Definition connection_close : M unit :=
  emit PgClose ;;
  set_connection (Connection true).

(** The context manager, applied to the body of its [with] block. *)
Definition get_db_connection {A} (body : M A) : M A :=
  set_connection NoConnection ;;
  try_finally
    (try_except
       (psycopg_connect ;; body)
       (fun e => isinstance e Exception)
       (fun e =>
          log ERROR "Error establishing database connection: %s" ;;
          raise e))
    (c <- get_connection ;;
     match c with
     | Connection false =>
         connection_close ;;
         log DEBUG "Database connection closed."
     | _ => ret tt
     end).

Definition build_insert_query (table_name : string) (columns : list string)
  (values : list value) : string * list value :=
  let query :=
    nl ++ spaces 8 ++ "INSERT INTO " ++ table_name
       ++ " (" ++ String.concat ", " columns ++ ")" ++
    nl ++ spaces 8 ++ "VALUES (" ++ placeholders (length values) ++ ")" ++
    nl ++ spaces 4 in
  (query, values).

Definition execute_query (query : string) (values : list value) : M unit :=
  try_except
    (resolved_query <- lift (percent_format E query values) ;;
     log DEBUG "Executing query: %s" ;;
     call (PgExecute query values) (execute_result E query values))
    (fun e => isinstance e DatabaseError)
    (fun e => log ERROR "Database error: %s" ;; raise e).

(** ** Building the column and value lists *)

(** [for loc_type in loc_types: if message.get(loc_type): ...]. *)
Fixpoint location_loop (message : value) (loc_types : list string)
  (location_columns : list string) (location_values : list value)
  : result (list string * list value) :=
  match loc_types with
  | [] => Return (location_columns, location_values)
  | loc_type :: rest =>
      (present <- py_get message loc_type ;;
       if truthy present then
         v <- py_get message loc_type ;;
         location_loop message rest
           (location_columns ++ [quoted loc_type]) (location_values ++ [v])
       else
         location_loop message rest location_columns location_values)%res
  end.

(** [for i in indices: ...] over the two media keys of each index; the
    column names differ between [app.py] and [handlers.py]. *)
Fixpoint media_loop (type_column url_column : nat -> string) (message : value)
  (indices : list nat) (media_columns : list string)
  (media_values : list value) : result (list string * list value) :=
  match indices with
  | [] => Return (media_columns, media_values)
  | i :: rest =>
      let media_type_key := "MediaContentType" ++ str_of_nat i in
      let media_url_key := "MediaUrl" ++ str_of_nat i in
      (has_type <- py_get message media_type_key ;;
       ' (cols1, vals1) <-
         (if truthy has_type then
            v <- py_get message media_type_key ;;
            Return ((media_columns ++ [type_column i])%list,
                    (media_values ++ [v])%list)
          else Return (media_columns, media_values)) ;;
       has_url <- py_get message media_url_key ;;
       ' (cols2, vals2) <-
         (if truthy has_url then
            v <- py_get message media_url_key ;;
            Return ((cols1 ++ [url_column i])%list, (vals1 ++ [v])%list)
          else Return (cols1, vals1)) ;;
       media_loop type_column url_column message rest cols2 vals2)%res
  end.

(** [[message.get(k) for k in keys]], written out as a list display. *)
Fixpoint get_all (message : value) (keys : list string)
  : result (list value) :=
  match keys with
  | [] => Return []
  | k :: rest =>
      (v <- py_get message k ;;
       vs <- get_all message rest ;;
       Return (v :: vs))%res
  end.

(** [range(10)]. *)
Definition range10 : list nat := seq 0 10.

(** ** [app.py]: the per-delivery callback *)

(** Returns [true] for a connection and [false] for [None]. *)
Definition connect_to_postgres : M bool :=
  try_except
    (psycopg_connect ;;
     log INFO "Connected to Postgres database." ;;
     ret true)
    (fun e => isinstance e PsycopgError)
    (fun e =>
       log ERROR "Error connecting to Postgres: %s" ;;
       set_connection NoConnection ;;
       ret false).

(** Lines 91 to 144 of [callback]: the static columns followed by the
    location and media columns that the message carries. *)
Definition callback_projection (message : value)
  : result (list string * list value) :=
  (' (location_columns, location_values) <-
     location_loop message
       ["FromCity"; "FromState"; "FromCountry"; "FromZip"] [] [] ;;
   ' (media_columns, media_values) <-
     media_loop (fun i => quoted ("MediaContentType" ++ str_of_nat i))
                (fun i => quoted ("MediaUrl" ++ str_of_nat i))
                message range10 [] [] ;;
   let columns :=
     ([quoted "MessageSid"; quoted "AccountSid"; quoted "MessagingServiceSid";
       quoted "From"; quoted "To"; quoted "Body"; quoted "NumSegments";
       quoted "NumMedia"; quoted "ApiVersion"]
      ++ location_columns ++ media_columns)%list in
   static_values <-
     get_all message
       ["MessageSid"; "AccountSid"; "MessagingServiceSid"; "From"; "To";
        "Body"; "NumSegments"; "NumMedia"; "ApiVersion"] ;;
   let values := (static_values ++ location_values ++ media_values)%list in
   Return (columns, values))%res.

(** Lines 146 to 158: the arity check, the statement and its execution. *)
Definition checked_insert (columns : list string) (values : list value)
  : M unit :=
  if negb (length columns =? length values)%nat then
    raise ValueError
  else
    let query :=
      nl ++ spaces 24 ++ "INSERT INTO " ++ POSTGRES_TABLE cfg
         ++ " (" ++ String.concat ", " columns ++ ")" ++
      nl ++ spaces 24 ++ "VALUES (" ++ placeholders (length values) ++ ")" ++
      nl ++ spaces 20 in
    call (PgExecute query values) (execute_result E query values).

(** [with conn.cursor() as cursor: body]. *)
Definition with_cursor {A} (body : M A) : M A :=
  call PgCursor (cursor_result E) ;;
  try_finally body (emit PgCursorClose).

(** [callback], over the function that builds the two lists. *)
Definition callback_with
  (projection : value -> result (list string * list value))
  (body : list byte) (delivery_tag : N) : M unit :=
  log INFO "Callback triggered." ;;
  try_except
    (message <- lift (json_loads E body) ;;
     log DEBUG "Received message: %s" ;;
     sender <- lift (py_get message "From") ;;
     log DEBUG "Processing message from %s" ;;
     conn <- connect_to_postgres ;;
     if (conn : bool) then
       try_finally
         (try_except
            (with_cursor
               (p <- lift (projection message) ;;
                checked_insert (fst p) (snd p)) ;;
             call PgCommit (commit_result E) ;;
             log INFO "Inserted message into Postgres." ;;
             emit (BasicAck delivery_tag))
            (fun e => isinstance e DatabaseError)
            (fun e => log ERROR "Database error during insertion: %s"))
         connection_close
     else
       log ERROR "No database connection available.")
    (fun e => isinstance e JSONDecodeError || isinstance e KeyError)
    (fun e => log ERROR "Failed to process message: %s").

Definition callback (body : list byte) (delivery_tag : N) : M unit :=
  callback_with callback_projection body delivery_tag.

(** The callback of the dead-letter consumer. *)
Definition retry_callback (body : list byte) (delivery_tag : N) : M unit :=
  log INFO "Retrying message from dead-letter queue." ;;
  emit (BasicPublish EmptyString (POSTGRES_QUEUE cfg) body) ;;
  emit (BasicAck delivery_tag).

End Pipeline.

(** ** [app.py]: the two consumer loops *)

(** One delivery handed to a callback by [start_consuming], with the
    environment its processing meets. *)
Record delivery : Type := {
  d_env : env;
  d_body : list byte;
  d_tag : N
}.

(** What one iteration of a [while True] consumer loop meets: the outcome of
    each connection and topology call, the deliveries dispatched while
    [start_consuming] blocks, and how [start_consuming] ends ([None]: it
    returns; [Some e]: it raises [e]). *)
Record attempt : Type := {
  setup_result : event -> option exn;
  deliveries : list delivery;
  ending : option exn
}.

(** [channel.start_consuming()]: each delivery goes to the callback; an
    exception of the callback leaves through [start_consuming]. *)
Fixpoint dispatch (on_message_callback : delivery -> M unit)
  (ds : list delivery) : M unit :=
  match ds with
  | [] => ret tt
  | d :: rest =>
      on_message_callback d ;;
      dispatch on_message_callback rest
  end.

Definition start_consuming (on_message_callback : delivery -> M unit)
  (a : attempt) : M unit :=
  emit StartConsuming ;;
  dispatch on_message_callback (deliveries a) ;;
  match ending a with
  | None => ret tt
  | Some e => raise e
  end.

Section Consumers.

Variable cfg : config.

Definition setup (a : attempt) (e : event) : M unit :=
  call e (setup_result a e).

(** The body of the [while True] loop of [consume_messages]. *)
Definition consume_iteration (a : attempt) : M unit :=
  log DEBUG "Attempting to connect to RabbitMQ..." ;;
  try_except
    (setup a (BlockingConnection (RABBITMQ_HOST cfg) (RABBITMQ_USER cfg)
                (RABBITMQ_PASS cfg)) ;;
     setup a Channel ;;
     setup a (ExchangeDeclare "dead_letter_exchange" "direct") ;;
     setup a (QueueDeclare "dead_letter_queue" true []) ;;
     setup a (QueueBind "dead_letter_exchange" "dead_letter_queue") ;;
     setup a (QueueDeclare (POSTGRES_QUEUE cfg) true
                [("x-message-ttl", VInt 60000);
                 ("x-dead-letter-exchange", VStr "dead_letter_exchange")]) ;;
     setup a (BasicConsume (POSTGRES_QUEUE cfg) "callback" false) ;;
     log INFO "Now ready to consume messages." ;;
     start_consuming
       (fun d => callback cfg (d_env d) (d_body d) (d_tag d)) a)
    (fun e => isinstance e AMQPConnectionError)
    (fun e =>
       log ERROR "Failed to connect to RabbitMQ: %s" ;;
       log DEBUG "Retrying in 5 seconds..." ;;
       emit (Sleep 5)).

(** [consume_messages] run against a script of iterations.  [Return tt]
    means the loop is still running when the script ends; [Raise e] means
    [e] left the loop and ended the thread. *)
Fixpoint consume_messages (script : list attempt) : M unit :=
  match script with
  | [] => ret tt
  | a :: rest => consume_iteration a ;; consume_messages rest
  end.

Definition retry_iteration (a : attempt) : M unit :=
  log DEBUG "Attempting to connect to RabbitMQ for retry..." ;;
  try_except
    (setup a (BlockingConnection (RABBITMQ_HOST cfg) (RABBITMQ_USER cfg)
                (RABBITMQ_PASS cfg)) ;;
     setup a Channel ;;
     setup a (BasicConsume "dead_letter_queue" "retry_callback" false) ;;
     log INFO "Now ready to retry messages from dead-letter queue." ;;
     start_consuming (fun d => retry_callback cfg (d_body d) (d_tag d)) a)
    (fun e => isinstance e AMQPConnectionError)
    (fun e =>
       log ERROR "Failed to connect to RabbitMQ for retry: %s" ;;
       log DEBUG "Retrying in 5 seconds..." ;;
       emit (Sleep 5)).

Fixpoint retry_dead_messages (script : list attempt) : M unit :=
  match script with
  | [] => ret tt
  | a :: rest => retry_iteration a ;; retry_dead_messages rest
  end.

End Consumers.

(** ** [handlers.py] *)

Section Handlers.

Variable cfg : config.
Variable E : env.

Definition handle_postgres_data (_message : value) : M unit :=
  log CRITICAL "Received message with type 'postgres'. No handler implemented.".

(** The two lists [handle_twilio_sms] hands to [build_insert_query]. *)
Definition twilio_sms_projection (message : value)
  : result (list string * list value) :=
  (' (location_columns, location_values) <-
     location_loop message
       ["from_city"; "from_state"; "from_country"; "from_zip"] [] [] ;;
   ' (media_columns, media_values) <-
     media_loop (fun i => "media_content_type_" ++ str_of_nat i)
                (fun i => "media_url_" ++ str_of_nat i)
                message range10 [] [] ;;
   let columns :=
     (["message_sid"; "account_sid"; "messagingservice_sid"; "from_num";
       "to_num"; "body"; "num_segments"; "num_media"; "api_version";
       "sender_name"; "wbor_message_id"]
      ++ location_columns ++ media_columns)%list in
   static_values <-
     get_all message
       ["MessageSid"; "AccountSid"; "MessagingServiceSid"; "From"; "To";
        "Body"; "NumSegments"; "NumMedia"; "ApiVersion"; "SenderName";
        "wbor_message_id"] ;;
   let values := (static_values ++ location_values ++ media_values)%list in
   Return (columns, values))%res.

(** The tail shared by every inserting handler: build, log, execute. *)
Definition insert_projection (table_name log_template : string)
  (p : list string * list value) : M unit :=
  let (query, values) := build_insert_query table_name (fst p) (snd p) in
  log DEBUG log_template ;;
  execute_query E query values.

Definition handle_twilio_sms (message : value) : M unit :=
  log DEBUG "Handling twilio.sms.incoming message: %s" ;;
  p <- lift (twilio_sms_projection message) ;;
  insert_projection (MESSAGES_TABLE cfg)
    "Executing `twilio.sms.incoming` query: %s" p.

(** [timestamp_str.replace("Z", "+00:00")]: a string is rewritten; a
    datetime has a [replace] of its own, which takes no string and raises
    [TypeError]; no other value has the method. *)
Definition py_replace_Z (timestamp_str : value) : result string :=
  match timestamp_str with
  | VStr s => Return (replace_char "Z"%char "+00:00" s)
  | VDatetime _ => Raise TypeError
  | _ => Raise AttributeError
  end.

Definition outgoing_twilio_sms_projection (message : value)
  : result (list string * list value) :=
  (timestamp_str <- py_get message "timestamp" ;;
   replaced <- py_replace_Z timestamp_str ;;
   timestamp <- fromisoformat E replaced ;;
   let columns :=
     [quoted "wbor_message_id"; quoted "recipient_number"; quoted "body";
      quoted "timestamp"] in
   v1 <- py_get message "wbor_message_id" ;;
   v2 <- py_get message "recipient_number" ;;
   v3 <- py_get message "body" ;;
   let values := [v1; v2; v3; timestamp] in
   Return (columns, values))%res.

Definition handle_outgoing_twilio_sms (message : value) : M unit :=
  log DEBUG "Handling twilio.sms.outgoing message: %s" ;;
  p <- lift (outgoing_twilio_sms_projection message) ;;
  insert_projection (SENT_MESSAGES_TABLE cfg)
    "Executing `twilio.sms.outgoing` query: %s" p.

Definition handle_twilio_voice_intelligence (_message : value) : M unit :=
  log DEBUG "Handling twilio.voice-intelligence message: %s".

Definition handle_twilio_call_events (_message : value) : M unit :=
  log DEBUG "Handling twilio.call-events message: %s".

Definition message_event_projection (message : value)
  : result (list string * list value) :=
  (let columns :=
     [quoted "text"; quoted "bot_id"; quoted "code"; quoted "type";
      quoted "wbor_message_id"; quoted "picture_url"; quoted "source"] in
   values <-
     get_all message
       ["text"; "bot_id"; "statuscode"; "type"; "wbor_message_id";
        "picture_url"; "source"] ;;
   Return (columns, values))%res.

Definition handle_message_event (message : value) : M unit :=
  log DEBUG "Handling groupme.msg message: %s" ;;
  p <- lift (message_event_projection message) ;;
  insert_projection (GROUPME_TABLE cfg) "Executing `groupme.msg` query: %s" p.

Definition image_event_projection (message : value)
  : result (list string * list value) :=
  (let columns :=
     [quoted "raw_img"; quoted "bot_id"; quoted "code"; quoted "type";
      quoted "wbor_message_id"; quoted "picture_url"; quoted "text";
      quoted "source"] in
   values <-
     get_all message
       ["raw_img"; "bot_id"; "statuscode"; "type"; "wbor_message_id";
        "picture_url"; "text"; "source"] ;;
   Return (columns, values))%res.

Definition handle_image_event (message : value) : M unit :=
  log DEBUG "Handling groupme.img message: %s" ;;
  p <- lift (image_event_projection message) ;;
  insert_projection (GROUPME_TABLE cfg) "Executing `groupme.img` query: %s" p.

Definition callback_event_projection (message : value)
  : result (list string * list value) :=
  (created_raw <- py_get message "created_at" ;;
   created_at <- fromtimestamp E created_raw ;;
   let columns :=
     [quoted "attachments"; quoted "avatar_url"; quoted "created_at";
      quoted "group_id"; quoted "id"; quoted "name"; quoted "sender_id";
      quoted "sender_type"; quoted "source_guid"; quoted "system";
      quoted "text"; quoted "user_id"] in
   attachments <- py_get_default message "attachments" (VList []) ;;
   dumped <- json_dumps E attachments ;;
   avatar_url <- py_get message "avatar_url" ;;
   rest <-
     get_all message
       ["group_id"; "id"; "name"; "sender_id"; "sender_type"; "source_guid";
        "system"; "text"; "user_id"] ;;
   let values := (VStr dumped :: avatar_url :: created_at :: rest)%list in
   Return (columns, values))%res.

Definition handle_callback_event (message : value) : M unit :=
  log DEBUG "Handling groupme.callback message: %s" ;;
  p <- lift (callback_event_projection message) ;;
  insert_projection (GROUPME_CALLBACK_TABLE cfg)
    "Executing `groupme.callback` query: %s" p.

(** [MESSAGE_HANDLERS] once the module is imported: the decorators register
    the handlers in source order, each under its own tag. *)
Definition MESSAGE_HANDLERS : list (string * (value -> M unit)) :=
  [("postgres", handle_postgres_data);
   ("twilio.sms.incoming", handle_twilio_sms);
   ("twilio.sms.outgoing", handle_outgoing_twilio_sms);
   ("twilio.voice-intelligence", handle_twilio_voice_intelligence);
   ("twilio.call-events", handle_twilio_call_events);
   ("groupme.msg", handle_message_event);
   ("groupme.img", handle_image_event);
   ("groupme.callback", handle_callback_event)].

End Handlers.

(** ** [handlers.py]: the handler registry *)

(** [d[k] = v] on a dict kept in insertion order: an existing key keeps its
    place and takes the new value, a new key goes last. *)
Fixpoint dict_set {V : Type} (k : string) (v : V) (d : list (string * V))
  : list (string * V) :=
  match d with
  | [] => [(k, v)]
  | (k', v') :: d' =>
      if String.eqb k k' then (k, v) :: d' else (k', v') :: dict_set k v d'
  end.

(** [d.get(k)]. *)
Fixpoint dict_get {V : Type} (k : string) (d : list (string * V))
  : option V :=
  match d with
  | [] => None
  | (k', v) :: d' => if String.eqb k k' then Some v else dict_get k d'
  end.

(** [register_message_handler(message_type)(func)]: the decorator stores
    [func] under [message_type] in the registry and returns it unchanged. *)
Definition register_message_handler {H : Type} (message_type : string)
  (func : H) (handlers : list (string * H)) : list (string * H) * H :=
  (dict_set message_type func handlers, func).

(** The registry after the decorators of the module have run, in source
    order, starting from [MESSAGE_HANDLERS = {}]. *)
Definition registered_handlers (cfg : config) (E : env)
  : list (string * (value -> M unit)) :=
  let r0 := [] in
  let r1 := fst (register_message_handler "postgres"
                   handle_postgres_data r0) in
  let r2 := fst (register_message_handler "twilio.sms.incoming"
                   (handle_twilio_sms cfg E) r1) in
  let r3 := fst (register_message_handler "twilio.sms.outgoing"
                   (handle_outgoing_twilio_sms cfg E) r2) in
  let r4 := fst (register_message_handler "twilio.voice-intelligence"
                   handle_twilio_voice_intelligence r3) in
  let r5 := fst (register_message_handler "twilio.call-events"
                   handle_twilio_call_events r4) in
  let r6 := fst (register_message_handler "groupme.msg"
                   (handle_message_event cfg E) r5) in
  let r7 := fst (register_message_handler "groupme.img"
                   (handle_image_event cfg E) r6) in
  fst (register_message_handler "groupme.callback"
         (handle_callback_event cfg E) r7).

(** * Auxiliary definitions for the statements *)

Open Scope list_scope.

(** The value [message.get(k)] returns on a dict. *)
Definition get_or_none (d : list (string * value)) (k : string) : value :=
  match lookup k d with
  | Some v => v
  | None => VNone
  end.

(** [message.get(k)] is truthy: the key is there with a truthy value. *)
Definition present (d : list (string * value)) (k : string) : bool :=
  truthy (get_or_none d k).

(** The two keys of media index [i] in the Twilio request. *)
Definition media_type_key (i : nat) : string :=
  ("MediaContentType" ++ str_of_nat i)%string.
Definition media_url_key (i : nat) : string :=
  ("MediaUrl" ++ str_of_nat i)%string.

(** The columns and values one index of the media loop contributes. *)
Definition media_columns_at (type_column url_column : nat -> string)
  (d : list (string * value)) (i : nat) : list string :=
  (if present d (media_type_key i) then [type_column i] else [])
  ++ (if present d (media_url_key i) then [url_column i] else []).

Definition media_values_at (d : list (string * value)) (i : nat)
  : list value :=
  (if present d (media_type_key i)
   then [get_or_none d (media_type_key i)] else [])
  ++ (if present d (media_url_key i)
      then [get_or_none d (media_url_key i)] else []).

(** The constant parts of the two SMS projections. *)
Definition app_loc_types : list string :=
  ["FromCity"; "FromState"; "FromCountry"; "FromZip"]%string.

Definition app_static_keys : list string :=
  ["MessageSid"; "AccountSid"; "MessagingServiceSid"; "From"; "To"; "Body";
   "NumSegments"; "NumMedia"; "ApiVersion"]%string.

Definition app_type_column (i : nat) : string :=
  quoted ("MediaContentType" ++ str_of_nat i).
Definition app_url_column (i : nat) : string :=
  quoted ("MediaUrl" ++ str_of_nat i).

Definition sms_loc_types : list string :=
  ["from_city"; "from_state"; "from_country"; "from_zip"]%string.

Definition sms_static_columns : list string :=
  ["message_sid"; "account_sid"; "messagingservice_sid"; "from_num";
   "to_num"; "body"; "num_segments"; "num_media"; "api_version";
   "sender_name"; "wbor_message_id"]%string.

Definition sms_static_keys : list string :=
  ["MessageSid"; "AccountSid"; "MessagingServiceSid"; "From"; "To"; "Body";
   "NumSegments"; "NumMedia"; "ApiVersion"; "SenderName";
   "wbor_message_id"]%string.

Definition sms_type_column (i : nat) : string :=
  ("media_content_type_" ++ str_of_nat i)%string.

Definition sms_url_column (i : nat) : string :=
  ("media_url_" ++ str_of_nat i)%string.

(** A decoded body that is not an object has no [get]. *)
Definition is_dict (message : value) : bool :=
  match message with
  | VDict _ => true
  | _ => false
  end.

(** Running a computation from the empty trace: one delivery, one call. *)
Definition outcome {A} (m : M A) : result A := fst (m init).
Definition trace {A} (m : M A) : list event := events (snd (m init)).
Definition final_connection {A} (m : M A) : pgconn :=
  connection (snd (m init)).

Definition is_ack (e : event) : bool :=
  match e with
  | BasicAck _ => true
  | _ => false
  end.

(** The calls by which a consumer hands a delivery back to the broker. *)
Definition is_requeue (e : event) : bool :=
  match e with
  | BasicNack _ _ | BasicReject _ _ | BasicPublish _ _ _ => true
  | _ => false
  end.

Definition is_execute (e : event) : bool :=
  match e with
  | PgExecute _ _ => true
  | _ => false
  end.

(** Any call on the database. *)
Definition is_pg (e : event) : bool :=
  match e with
  | PgConnect | PgCursor | PgExecute _ _ | PgCursorClose | PgCommit
  | PgClose => true
  | _ => false
  end.

Definition count_acks (t : list event) : nat := length (filter is_ack t).

(** The waits of a trace, in order, in seconds. *)
Definition sleeps (t : list event) : list Z :=
  flat_map (fun e => match e with Sleep s => [s] | _ => [] end) t.

(** Occurrences of the placeholder [%s] in a text, scanning left to right. *)
Fixpoint count_placeholders (s : string) : nat :=
  match s with
  | EmptyString => O
  | String c tl =>
      match tl with
      | EmptyString => O
      | String c' rest =>
          if Ascii.eqb c "%" && Ascii.eqb c' "s"
          then S (count_placeholders rest)
          else count_placeholders tl
      end
  end.

(** No [%] occurs in an identifier. *)
Fixpoint percent_free (s : string) : bool :=
  match s with
  | EmptyString => true
  | String c tl => negb (Ascii.eqb c "%") && percent_free tl
  end.

(** ** Concrete environments and inputs *)

(** A store that accepts everything and a decoder that yields [decoded]. *)
Definition healthy_env (decoded : result value) : env := {|
  json_loads := fun _ => decoded;
  json_dumps := fun _ => Return "[]"%string;
  fromisoformat := fun _ => Return (VDatetime 0);
  fromtimestamp :=
    fun v => match v with
             | VInt z => Return (VDatetime z)
             | _ => Raise TypeError
             end;
  percent_format := fun query _ => Return query;
  connect_result := None;
  cursor_result := None;
  execute_result := fun _ _ => None;
  commit_result := None
|}.

(** The same, with a store that rejects every statement. *)
Definition rejecting_env (decoded : result value) (e : exn) : env := {|
  json_loads := json_loads (healthy_env decoded);
  json_dumps := json_dumps (healthy_env decoded);
  fromisoformat := fromisoformat (healthy_env decoded);
  fromtimestamp := fromtimestamp (healthy_env decoded);
  percent_format := percent_format (healthy_env decoded);
  connect_result := None;
  cursor_result := None;
  execute_result := fun _ _ => Some e;
  commit_result := None
|}.

(** The same, with a store that cannot be reached. *)
Definition unreachable_env (decoded : result value) (e : exn) : env := {|
  json_loads := json_loads (healthy_env decoded);
  json_dumps := json_dumps (healthy_env decoded);
  fromisoformat := fromisoformat (healthy_env decoded);
  fromtimestamp := fromtimestamp (healthy_env decoded);
  percent_format := percent_format (healthy_env decoded);
  connect_result := Some e;
  cursor_result := None;
  execute_result := fun _ _ => None;
  commit_result := None
|}.

(** The bytes of [{"From": ] (cut short), of [[]] and of a small SMS. *)
Definition truncated_body : list byte :=
  [x7b; x22; x46; x72; x6f; x6d; x22; x3a; x20].
Definition list_body : list byte := [x5b; x5d].
Definition sms_body : list byte :=
  [x7b; x22; x46; x72; x6f; x6d; x22; x3a; x20; x22; x2b; x31; x22; x7d].

(** [{"From": "+1"}] decoded, and an SMS with a city and one picture. *)
Definition sms_message : value := VDict [("From"%string, VStr "+1")].
Definition mms_message : value :=
  VDict [("From", VStr "+1"); ("FromCity", VStr "Brunswick");
         ("FromZip", VStr EmptyString); ("MediaUrl0", VStr "https://example/0");
         ("MediaContentType0", VStr "image/png");
         ("MediaUrl10", VStr "https://example/10")]%string.

(** Scans a trace: every [basic_ack] comes after a [commit]. *)
Fixpoint acks_follow_commit (committed : bool) (t : list event) : bool :=
  match t with
  | [] => true
  | PgCommit :: tl => acks_follow_commit true tl
  | BasicAck _ :: tl => committed && acks_follow_commit committed tl
  | _ :: tl => acks_follow_commit committed tl
  end.

(** The statement text [callback] builds for given columns and values. *)
Definition callback_query (cfg : config) (columns : list string)
  (values : list value) : string :=
  (nl ++ spaces 24 ++ "INSERT INTO " ++ POSTGRES_TABLE cfg
      ++ " (" ++ String.concat ", " columns ++ ")" ++
   nl ++ spaces 24 ++ "VALUES (" ++ placeholders (length values) ++ ")" ++
   nl ++ spaces 20)%string.

(** The trace of a delivery that is decoded, inserted and committed. *)
Definition success_trace (cfg : config) (columns : list string)
  (values : list value) (delivery_tag : N) : list event :=
  [Log INFO "Callback triggered.";
   Log DEBUG "Received message: %s";
   Log DEBUG "Processing message from %s";
   PgConnect;
   Log INFO "Connected to Postgres database.";
   PgCursor;
   PgExecute (callback_query cfg columns values) values;
   PgCursorClose;
   PgCommit;
   Log INFO "Inserted message into Postgres.";
   BasicAck delivery_tag;
   PgClose].

(** A broker that accepts every connection and topology call. *)
Definition quiet_attempt (ds : list delivery) (ending : option exn)
  : attempt := {|
  setup_result := fun _ => None;
  deliveries := ds;
  ending := ending
|}.

(** A broker that refuses the connection. *)
Definition refused_attempt : attempt := {|
  setup_result :=
    fun e => match e with
             | BlockingConnection _ _ _ => Some AMQPConnectionError
             | _ => None
             end;
  deliveries := [];
  ending := None
|}.

(** The classes the outer [except] clause of [callback] names. *)
Definition caught_by_callback (e : exn) : bool :=
  isinstance e JSONDecodeError || isinstance e KeyError.

(** What [retry_callback] does with one dead-lettered delivery. *)
Definition republish_events (cfg : config) (d : delivery) : list event :=
  [Log INFO "Retrying message from dead-letter queue.";
   BasicPublish EmptyString (POSTGRES_QUEUE cfg) (d_body d);
   BasicAck (d_tag d)].

(** The bodies published and the tags acknowledged in a trace, in order. *)
Definition published (t : list event) : list (string * string * list byte) :=
  flat_map (fun e => match e with
                     | BasicPublish x k b => [(x, k, b)]
                     | _ => []
                     end) t.

Definition acked (t : list event) : list N :=
  flat_map (fun e => match e with BasicAck n => [n] | _ => [] end) t.

(** The first broker call of an iteration raises a connection error. *)
Definition connection_refused (cfg : config) (a : attempt) : Prop :=
  exists e,
    setup_result a (BlockingConnection (RABBITMQ_HOST cfg)
                      (RABBITMQ_USER cfg) (RABBITMQ_PASS cfg)) = Some e
    /\ isinstance e AMQPConnectionError = true.

(** Every connection and topology call of an iteration returns. *)
Definition connection_accepted (a : attempt) : Prop :=
  forall e, setup_result a e = None.



(** A [with] body that uses the connection and then fails. *)
Definition failing_body : M unit :=
  emit PgCursor ;; raise ValueError.


(** The projections of the code paths that insert: [callback] of [app.py]
    and the five inserting handlers of [handlers.py]. *)
Definition inserting_projections (E : env)
  : list (value -> result (list string * list value)) :=
  [callback_projection;
   twilio_sms_projection;
   outgoing_twilio_sms_projection E;
   message_event_projection;
   image_event_projection;
   callback_event_projection E].

(** Each inserting handler with its projection and its table. *)
Definition inserting_handlers (cfg : config) (E : env)
  : list ((value -> M unit)
          * (value -> result (list string * list value)) * string) :=
  [(handle_twilio_sms cfg E, twilio_sms_projection, MESSAGES_TABLE cfg);
   (handle_outgoing_twilio_sms cfg E, outgoing_twilio_sms_projection E,
    SENT_MESSAGES_TABLE cfg);
   (handle_message_event cfg E, message_event_projection, GROUPME_TABLE cfg);
   (handle_image_event cfg E, image_event_projection, GROUPME_TABLE cfg);
   (handle_callback_event cfg E, callback_event_projection E,
    GROUPME_CALLBACK_TABLE cfg)].

(** What a projection with [n_static] static columns does with the optional
    fields of the object [d]: every column is static, or the column of a
    location key or of a media key with index below 10 that [d] holds with a
    truthy value; conversely such a key has its column; and the values
    after the static ones are never [None]. *)
Definition optional_columns_spec (static locs : list string)
  (type_column url_column : nat -> string) (d : list (string * value))
  (cols : list string) (vals : list value) : Prop :=
  length cols = length vals
  /\ (forall c, In c cols ->
        In c static
        \/ (exists loc, In loc locs /\ c = quoted loc
                        /\ present d loc = true)
        \/ (exists i, i < 10
              /\ ((c = type_column i /\ present d (media_type_key i) = true)
                  \/ (c = url_column i
                      /\ present d (media_url_key i) = true))))
  /\ (forall loc, In loc locs ->
        (In (quoted loc) cols <-> present d loc = true))
  /\ (forall i, In (type_column i) cols <->
                i < 10 /\ present d (media_type_key i) = true)
  /\ (forall i, In (url_column i) cols <->
                i < 10 /\ present d (media_url_key i) = true)
  /\ (forall v, In v (skipn (length static) vals) ->
                truthy v = true /\ v <> VNone).

(** The names a projection gives its columns do not collide. *)
Definition distinct_names (static locs : list string)
  (type_column url_column : nat -> string) : Prop :=
  (forall loc, In loc locs -> ~ In (quoted loc) static)
  /\ (forall i, ~ In (type_column i) static /\ ~ In (url_column i) static)
  /\ (forall loc i, In loc locs ->
        quoted loc <> type_column i /\ quoted loc <> url_column i)
  /\ (forall i j, type_column i <> url_column j)
  /\ (forall i j, type_column i = type_column j -> i = j)
  /\ (forall i j, url_column i = url_column j -> i = j).

Definition mms_columns : list string :=
  [quoted "MessageSid"; quoted "AccountSid"; quoted "MessagingServiceSid";
   quoted "From"; quoted "To"; quoted "Body"; quoted "NumSegments";
   quoted "NumMedia"; quoted "ApiVersion"; quoted "FromCity";
   quoted "MediaContentType0"; quoted "MediaUrl0"].
Definition mms_values : list value :=
  [VNone; VNone; VNone; VStr "+1"; VNone; VNone; VNone; VNone; VNone;
   VStr "Brunswick"; VStr "image/png"; VStr "https://example/0"].

(** The [with] body cannot rebind the generator's local [connection]; it can
    only use the object, closing it or not. *)
Definition keeps_connection {A} (body : M A) : Prop :=
  forall w c, connection w = Connection c ->
              exists c', connection (snd (body w)) = Connection c'.

(** The world at the [yield] of [get_db_connection]. *)
Definition at_yield (w : world) : world :=
  mkWorld (events w ++ [PgConnect]) (Connection false).

(** What [handle_twilio_sms] builds from [mms_message]. *)
Definition mms_sms_columns : list string :=
  ["message_sid"; "account_sid"; "messagingservice_sid"; "from_num";
   "to_num"; "body"; "num_segments"; "num_media"; "api_version";
   "sender_name"; "wbor_message_id"; "media_content_type_0";
   "media_url_0"]%string.
Definition mms_sms_values : list value :=
  [VNone; VNone; VNone; VStr "+1"; VNone; VNone; VNone; VNone; VNone;
   VNone; VNone; VStr "image/png"; VStr "https://example/0"].

(** ** Further notions for the statements *)

Definition is_log (e : event) : bool :=
  match e with
  | Log _ _ => true
  | _ => false
  end.

(** The character [c] does not occur in [s]. *)
Fixpoint char_free (c : ascii) (s : string) : bool :=
  match s with
  | EmptyString => true
  | String x rest => negb (Ascii.eqb x c) && char_free c rest
  end.

(** The number of occurrences of [c] in [s]. *)
Fixpoint count_char (c : ascii) (s : string) : nat :=
  match s with
  | EmptyString => 0
  | String x rest =>
      (if Ascii.eqb x c then 1 else 0) + count_char c rest
  end.

(** The value [message.get("attachments", [])] returns on a dict. *)
Definition attachments_or_empty (d : list (string * value)) : value :=
  match lookup "attachments" d with
  | Some v => v
  | None => VList []
  end.

(** The tags the module registers. *)
Definition registry_tags : list string :=
  ["postgres"; "twilio.sms.incoming"; "twilio.sms.outgoing";
   "twilio.voice-intelligence"; "twilio.call-events"; "groupme.msg";
   "groupme.img"; "groupme.callback"]%string.

(** A GroupMe callback with a creation time and no attachments. *)
Definition groupme_callback_message : value :=
  VDict [("created_at", VInt 1700000000); ("text", VStr "hi")]%string.

(** An outgoing SMS record whose timestamp is missing. *)
Definition outgoing_without_timestamp : value :=
  VDict [("body", VStr "hi"); ("recipient_number", VStr "+1")]%string.

(** An environment in which every conversion fails. *)
Definition strict_clock_env : env := {|
  json_loads := json_loads (healthy_env (Raise JSONDecodeError));
  json_dumps := json_dumps (healthy_env (Raise JSONDecodeError));
  fromisoformat := fun _ => Raise ValueError;
  fromtimestamp := fun _ => Raise TypeError;
  percent_format := fun _ _ => Raise TypeError;
  connect_result := None;
  cursor_result := None;
  execute_result := fun _ _ => None;
  commit_result := None
|}.

(** The run of a handler that logs, projects and inserts, read off the
    outcomes of its three fallible steps. *)
Definition logged_insert_run (E : env) (tmpl1 tmpl2 table : string)
  (projected : result (list string * list value)) : result unit * world :=
  match projected with
  | Raise e => (Raise e, mkWorld [Log DEBUG tmpl1] NoConnection)
  | Return (cols, vals) =>
      let query := fst (build_insert_query table cols vals) in
      match percent_format E query vals with
      | Raise e =>
          (Raise e,
           mkWorld ([Log DEBUG tmpl1; Log DEBUG tmpl2]
                    ++ if isinstance e DatabaseError
                       then [Log ERROR "Database error: %s"] else [])
                   NoConnection)
      | Return _ =>
          match execute_result E query vals with
          | None =>
              (Return tt,
               mkWorld [Log DEBUG tmpl1; Log DEBUG tmpl2;
                        Log DEBUG "Executing query: %s";
                        PgExecute query vals] NoConnection)
          | Some e =>
              (Raise e,
               mkWorld ([Log DEBUG tmpl1; Log DEBUG tmpl2;
                         Log DEBUG "Executing query: %s";
                         PgExecute query vals]
                        ++ if isinstance e DatabaseError
                           then [Log ERROR "Database error: %s"] else [])
                       NoConnection)
          end
      end
  end.

(** The database calls of a trace, in order. *)
Definition pg_calls (t : list event) : list event := filter is_pg t.

(** The sequences of database calls one delivery can make. *)
Definition pg_protocol (calls : list event) : Prop :=
  calls = []
  \/ calls = [PgConnect]
  \/ calls = [PgConnect; PgCursor; PgClose]
  \/ (exists q vs,
        calls = [PgConnect; PgCursor; PgExecute q vs; PgCursorClose; PgClose])
  \/ (exists q vs,
        calls = [PgConnect; PgCursor; PgExecute q vs; PgCursorClose;
                 PgCommit; PgClose]).

(** The fields of the two SMS projections as (key, column) pairs: those
    always inserted, and the optional ones in the order they are tried. *)
Definition app_static_fields : list (string * string) :=
  map (fun k => (k, quoted k)) app_static_keys.
Definition app_optional_fields : list (string * string) :=
  map (fun loc => (loc, quoted loc)) app_loc_types
  ++ flat_map (fun i => [(media_type_key i, app_type_column i);
                         (media_url_key i, app_url_column i)]) range10.
Definition sms_static_fields : list (string * string) :=
  combine sms_static_keys sms_static_columns.
Definition sms_optional_fields : list (string * string) :=
  map (fun loc => (loc, quoted loc)) sms_loc_types
  ++ flat_map (fun i => [(media_type_key i, sms_type_column i);
                         (media_url_key i, sms_url_column i)]) range10.

(** The (column, value) pairs a projection over such fields yields on the
    object [d]. *)
Definition projected_pairs (static optional : list (string * string))
  (d : list (string * value)) : list (string * value) :=
  map (fun kc => (snd kc, get_or_none d (fst kc)))
    (static ++ filter (fun kc => present d (fst kc)) optional).

(** The trace of an iteration of the dead-letter loop whose connection is
    refused, and of an accepted one up to the start of consumption. *)
Definition retry_refused_events (cfg : config) : list event :=
  [Log DEBUG "Attempting to connect to RabbitMQ for retry...";
   BlockingConnection (RABBITMQ_HOST cfg) (RABBITMQ_USER cfg)
     (RABBITMQ_PASS cfg);
   Log ERROR "Failed to connect to RabbitMQ for retry: %s";
   Log DEBUG "Retrying in 5 seconds...";
   Sleep 5].

Definition retry_ready_events (cfg : config) : list event :=
  [Log DEBUG "Attempting to connect to RabbitMQ for retry...";
   BlockingConnection (RABBITMQ_HOST cfg) (RABBITMQ_USER cfg)
     (RABBITMQ_PASS cfg);
   Channel;
   BasicConsume "dead_letter_queue" "retry_callback" false;
   Log INFO "Now ready to retry messages from dead-letter queue.";
   StartConsuming].

(** How an iteration ends once [start_consuming] is over: silently if it
    returned, with the retry wait if it raised a connection error. *)
Definition retry_ending_events (a : attempt) : list event :=
  match ending a with
  | Some e =>
      if isinstance e AMQPConnectionError
      then [Log ERROR "Failed to connect to RabbitMQ for retry: %s";
            Log DEBUG "Retrying in 5 seconds...";
            Sleep 5]
      else []
  | None => []
  end.

Definition loop_outcome (a : attempt) : result unit :=
  match ending a with
  | Some e => if isinstance e AMQPConnectionError then Return tt else Raise e
  | None => Return tt
  end.

(** The connection and topology calls of [consume_messages], in order. *)
Definition setup_calls (cfg : config) : list event :=
  [BlockingConnection (RABBITMQ_HOST cfg) (RABBITMQ_USER cfg)
     (RABBITMQ_PASS cfg);
   Channel;
   ExchangeDeclare "dead_letter_exchange" "direct";
   QueueDeclare "dead_letter_queue" true [];
   QueueBind "dead_letter_exchange" "dead_letter_queue";
   QueueDeclare (POSTGRES_QUEUE cfg) true
     [("x-message-ttl"%string, VInt 60000);
      ("x-dead-letter-exchange"%string, VStr "dead_letter_exchange")];
   BasicConsume (POSTGRES_QUEUE cfg) "callback" false].

(** The deliveries [start_consuming] gets to hand over: all of them in
    order, up to and including the first whose callback raises. *)
Fixpoint processed (on_message_callback : delivery -> M unit)
  (ds : list delivery) : list delivery :=
  match ds with
  | [] => []
  | d :: rest =>
      match outcome (on_message_callback d) with
      | Return _ => d :: processed on_message_callback rest
      | Raise _ => [d]
      end
  end.

(** The primary callback on a delivery, and whether it acknowledges it. *)
Definition primary_callback (cfg : config) (d : delivery) : M unit :=
  callback cfg (d_env d) (d_body d) (d_tag d).

Definition acknowledges (cfg : config) (d : delivery) : bool :=
  existsb is_ack (trace (primary_callback cfg d)).

(** What the primary consumer may do: subscribe without auto-ack only,
    never nack, reject or publish, and wait five seconds at a time. *)
Definition primary_event_ok (e : event) : bool :=
  match e with
  | BasicConsume _ _ auto_ack => negb auto_ack
  | BasicNack _ _ | BasicReject _ _ | BasicPublish _ _ _ => false
  | Sleep s => (s =? 5)%Z
  | _ => true
  end.

(** What the dead-letter consumer may do: subscribe without auto-ack only,
    publish to the default exchange under the primary queue name only,
    never nack or reject, never touch the database or the topology, and
    wait five seconds at a time. *)
Definition retry_event_ok (cfg : config) (e : event) : bool :=
  match e with
  | BasicConsume _ _ auto_ack => negb auto_ack
  | BasicPublish x k _ =>
      String.eqb x EmptyString && String.eqb k (POSTGRES_QUEUE cfg)
  | BasicNack _ _ | BasicReject _ _ => false
  | PgConnect | PgCursor | PgExecute _ _ | PgCursorClose | PgCommit
  | PgClose => false
  | ExchangeDeclare _ _ | QueueDeclare _ _ _ | QueueBind _ _ => false
  | Sleep s => (s =? 5)%Z
  | _ => true
  end.

(** Every event a computation adds to the trace satisfies [P]. *)
Definition emits_only (P : event -> bool) {A} (m : M A) : Prop :=
  forall w, forallb P (events w) = true ->
            forallb P (events (snd (m w))) = true.

(** A delivery the store rejects, and one it accepts. *)
Definition rejected_delivery : delivery := {|
  d_env := rejecting_env (Return sms_message) IntegrityError;
  d_body := sms_body;
  d_tag := 1
|}.
Definition accepted_delivery : delivery := {|
  d_env := healthy_env (Return sms_message);
  d_body := sms_body;
  d_tag := 2
|}.
Definition poison_delivery : delivery := {|
  d_env := healthy_env (Return (VList []));
  d_body := list_body;
  d_tag := 3
|}.

(** A broker that refuses to open a channel. *)
Definition channel_refused_attempt (e : exn) : attempt := {|
  setup_result :=
    fun ev => match ev with
              | Channel => Some e
              | _ => None
              end;
  deliveries := [];
  ending := None
|}.

(** What [value.replace("Z", "+00:00")] raises on a value that is not a
    string. *)
Definition replace_error (v : value) : exn :=
  match v with
  | VDatetime _ => TypeError
  | _ => AttributeError
  end.

(** The optional keys of the two SMS projections. *)
Definition app_optional_keys : list string := map fst app_optional_fields.
Definition sms_optional_keys : list string := map fst sms_optional_fields.

(** Two SMS that differ in sender, in body and in the value of the city,
    and hold the same optional keys. *)
Definition first_sender_message : list (string * value) :=
  [("From", VStr "+1"); ("Body", VStr "hello");
   ("FromCity", VStr "Brunswick"); ("from_city", VStr "Brunswick");
   ("MediaUrl0", VStr "https://example/a")]%string.
Definition second_sender_message : list (string * value) :=
  [("From", VStr "+2"); ("FromCity", VStr "Portland");
   ("from_city", VStr "Portland");
   ("MediaUrl0", VStr "https://example/b")]%string.


(** * Proofs *)

(** ** Tactics *)

(** Unfolds the monad down to case analyses on the environment. *)
Ltac unfold_monad :=
  unfold callback, callback_with, retry_callback, get_db_connection,
    with_cursor, checked_insert, connect_to_postgres, psycopg_connect,
    connection_close, try_except, try_finally, bind, lift, log, call, emit,
    ret, raise, set_connection, get_connection.

(** One case split on the scrutinee of a pending [match]. *)
Ltac case_step :=
  match goal with
  | |- context [match ?x with _ => _ end] =>
      lazymatch x with
      | context [match _ with _ => _ end] => fail
      | _ => destruct x eqn:?
      end
  end.

(** Runs a callback symbolically: one goal per path through it. *)
Ltac run_callback :=
  unfold trace, outcome, final_connection; unfold_monad;
  cbn -[isinstance py_get String.append Nat.eqb nl spaces placeholders];
  repeat (case_step;
          cbn -[isinstance py_get String.append Nat.eqb nl spaces
                placeholders]).

(** Membership in an explicit trace, as a disjunction of equations. *)
Ltac split_in H :=
  repeat match type of H with
         | _ \/ _ => destruct H as [H|H]
         end.

(** ** Concrete runs *)

Example statement_text :
  fst (build_insert_query "messages" ["body"; "from_num"]%string
         [VStr "hello"; VStr "+1"]) =
  (nl ++ "        INSERT INTO messages (body, from_num)" ++
   nl ++ "        VALUES (%s, %s)" ++
   nl ++ "    ")%string.
Proof. reflexivity. Qed.

Example sms_inserted_and_acked :
  callback default_config (healthy_env (Return sms_message)) sms_body 7 init =
  (Return tt,
   mkWorld
     (success_trace default_config
        (map quoted app_static_keys)
        [VNone; VNone; VNone; VStr "+1"; VNone; VNone; VNone; VNone; VNone]
        7)
     (Connection true)).
Proof. reflexivity. Qed.

Example rejected_insert_not_acked :
  trace (callback default_config
           (rejecting_env (Return sms_message) IntegrityError) sms_body 7) =
  [Log INFO "Callback triggered.";
   Log DEBUG "Received message: %s";
   Log DEBUG "Processing message from %s";
   PgConnect;
   Log INFO "Connected to Postgres database.";
   PgCursor;
   PgExecute
     (callback_query default_config (map quoted app_static_keys)
        [VNone; VNone; VNone; VStr "+1"; VNone; VNone; VNone; VNone; VNone])
     [VNone; VNone; VNone; VStr "+1"; VNone; VNone; VNone; VNone; VNone];
   PgCursorClose;
   Log ERROR "Database error during insertion: %s";
   PgClose].
Proof. reflexivity. Qed.

Example unreachable_store_not_acked :
  callback default_config
    (unreachable_env (Return sms_message) OperationalError) sms_body 7 init =
  (Return tt,
   mkWorld
     [Log INFO "Callback triggered.";
      Log DEBUG "Received message: %s";
      Log DEBUG "Processing message from %s";
      PgConnect;
      Log ERROR "Error connecting to Postgres: %s";
      Log ERROR "No database connection available."]
     NoConnection).
Proof. reflexivity. Qed.

Example mms_columns_built :
  callback_projection mms_message = Return (mms_columns, mms_values).
Proof. reflexivity. Qed.

Example groupme_callback_without_timestamp :
  outcome (handle_callback_event default_config
             (healthy_env (Raise KeyError))
             (VDict [("text"%string, VStr "hi")])) = Raise TypeError.
Proof. reflexivity. Qed.

Example two_refusals_then_consumption :
  sleeps (trace (consume_messages default_config
                   [refused_attempt; refused_attempt;
                    quiet_attempt
                      [{| d_env := healthy_env (Return sms_message);
                          d_body := sms_body; d_tag := 1 |}] None]))
  = [5; 5]%Z
  /\ acked (trace (consume_messages default_config
                     [refused_attempt; refused_attempt;
                      quiet_attempt
                        [{| d_env := healthy_env (Return sms_message);
                            d_body := sms_body; d_tag := 1 |}] None]))
     = [1%N].
Proof. split; reflexivity. Qed.

Example dead_letter_republished :
  trace (retry_dead_messages default_config
           [quiet_attempt
              [{| d_env := healthy_env (Return sms_message);
                  d_body := sms_body; d_tag := 4 |}]
              (Some AMQPConnectionError)]) =
  [Log DEBUG "Attempting to connect to RabbitMQ for retry...";
   BlockingConnection "wbor-rabbitmq" "guest" "guest";
   Channel;
   BasicConsume "dead_letter_queue" "retry_callback" false;
   Log INFO "Now ready to retry messages from dead-letter queue.";
   StartConsuming;
   Log INFO "Retrying message from dead-letter queue.";
   BasicPublish EmptyString "postgres" sms_body;
   BasicAck 4;
   Log ERROR "Failed to connect to RabbitMQ for retry: %s";
   Log DEBUG "Retrying in 5 seconds...";
   Sleep 5].
Proof. reflexivity. Qed.

(** ** The projections *)

Lemma py_get_dict d k : py_get (VDict d) k = Return (get_or_none d k).
Proof. unfold py_get, get_or_none. destruct (lookup k d); reflexivity. Qed.

Lemma present_lookup d k :
  present d k = true -> exists v, lookup k d = Some v /\ truthy v = true.
Proof.
  unfold present, get_or_none. destruct (lookup k d) as [v|]; simpl.
  - intros H. exists v. split; [reflexivity | exact H].
  - discriminate.
Qed.

Lemma location_loop_dict d locs cols vals :
  location_loop (VDict d) locs cols vals =
  Return (cols ++ map quoted (filter (present d) locs),
          vals ++ map (get_or_none d) (filter (present d) locs)).
Proof.
  revert cols vals. induction locs as [|loc rest IH]; intros cols vals.
  - simpl. rewrite !app_nil_r. reflexivity.
  - cbn [location_loop]. rewrite py_get_dict. cbn [rbind].
    fold (present d loc). simpl filter.
    destruct (present d loc).
    + rewrite IH. simpl. rewrite <- !app_assoc. reflexivity.
    + apply IH.
Qed.

Lemma media_loop_dict tc uc d idxs cols vals :
  media_loop tc uc (VDict d) idxs cols vals =
  Return (cols ++ flat_map (media_columns_at tc uc d) idxs,
          vals ++ flat_map (media_values_at d) idxs).
Proof.
  revert cols vals. induction idxs as [|i rest IH]; intros cols vals.
  - simpl. rewrite !app_nil_r. reflexivity.
  - cbn [media_loop flat_map]. rewrite !py_get_dict. cbn [rbind].
    fold (media_type_key i) (media_url_key i).
    unfold media_columns_at at 1, media_values_at at 1.
    fold (present d (media_type_key i)) (present d (media_url_key i)).
    destruct (present d (media_type_key i));
      destruct (present d (media_url_key i));
      cbn [rbind]; rewrite IH; simpl; rewrite <- ?app_assoc; reflexivity.
Qed.

Lemma get_all_dict d keys :
  get_all (VDict d) keys = Return (map (get_or_none d) keys).
Proof.
  induction keys as [|k rest IH]; [reflexivity|].
  cbn [get_all map]. rewrite py_get_dict, IH. reflexivity.
Qed.

Lemma media_at_length tc uc d i :
  length (media_columns_at tc uc d i) = length (media_values_at d i).
Proof.
  unfold media_columns_at, media_values_at.
  destruct (present d _); destruct (present d _); reflexivity.
Qed.

Lemma media_flat_length tc uc d idxs :
  length (flat_map (media_columns_at tc uc d) idxs) =
  length (flat_map (media_values_at d) idxs).
Proof.
  induction idxs as [|i rest IH]; [reflexivity|].
  simpl. rewrite !length_app, IH, media_at_length. reflexivity.
Qed.

(** What [callback] builds from a JSON object. *)
Lemma callback_projection_dict d :
  callback_projection (VDict d) =
  Return
    (map quoted app_static_keys
       ++ map quoted (filter (present d) app_loc_types)
       ++ flat_map (media_columns_at app_type_column app_url_column d) range10,
     map (get_or_none d) app_static_keys
       ++ map (get_or_none d) (filter (present d) app_loc_types)
       ++ flat_map (media_values_at d) range10).
Proof.
  unfold callback_projection.
  rewrite location_loop_dict. cbn [rbind].
  rewrite media_loop_dict. cbn [rbind].
  rewrite get_all_dict. reflexivity.
Qed.

(** What [handle_twilio_sms] builds from a JSON object. *)
Lemma twilio_sms_projection_dict d :
  twilio_sms_projection (VDict d) =
  Return
    (sms_static_columns
       ++ map quoted (filter (present d) sms_loc_types)
       ++ flat_map (media_columns_at sms_type_column sms_url_column d) range10,
     map (get_or_none d) sms_static_keys
       ++ map (get_or_none d) (filter (present d) sms_loc_types)
       ++ flat_map (media_values_at d) range10).
Proof.
  unfold twilio_sms_projection.
  rewrite location_loop_dict. cbn [rbind].
  rewrite media_loop_dict. cbn [rbind].
  rewrite get_all_dict. reflexivity.
Qed.

Lemma py_get_not_dict message k :
  is_dict message = false -> py_get message k = Raise AttributeError.
Proof. destruct message; simpl; intros H; try reflexivity; discriminate. Qed.

Lemma is_dict_true message :
  is_dict message = true -> exists d, message = VDict d.
Proof. destruct message; simpl; try discriminate. intros _. eauto. Qed.

Lemma callback_projection_not_dict message :
  is_dict message = false ->
  callback_projection message = Raise AttributeError.
Proof.
  intros H. unfold callback_projection. cbn [location_loop].
  rewrite (py_get_not_dict _ _ H). reflexivity.
Qed.

Lemma twilio_sms_projection_not_dict message :
  is_dict message = false ->
  twilio_sms_projection message = Raise AttributeError.
Proof.
  intros H. unfold twilio_sms_projection. cbn [location_loop].
  rewrite (py_get_not_dict _ _ H). reflexivity.
Qed.

Lemma Return_pair_inv {A B} (a c : A) (b d : B) :
  Return (a, b) = Return (c, d) -> a = c /\ b = d.
Proof. intros H. injection H as -> ->. split; reflexivity. Qed.

Lemma callback_projection_arity message cols vals :
  callback_projection message = Return (cols, vals) ->
  length cols = length vals.
Proof.
  destruct (is_dict message) eqn:Hd.
  - apply is_dict_true in Hd. destruct Hd as [d ->].
    rewrite callback_projection_dict. intros H.
    apply Return_pair_inv in H. destruct H as [<- <-].
    rewrite !length_app, !length_map, media_flat_length. reflexivity.
  - rewrite (callback_projection_not_dict _ Hd). discriminate.
Qed.

Lemma twilio_sms_projection_arity message cols vals :
  twilio_sms_projection message = Return (cols, vals) ->
  length cols = length vals.
Proof.
  destruct (is_dict message) eqn:Hd.
  - apply is_dict_true in Hd. destruct Hd as [d ->].
    rewrite twilio_sms_projection_dict. intros H.
    apply Return_pair_inv in H. destruct H as [<- <-].
    rewrite !length_app, !length_map, media_flat_length. reflexivity.
  - rewrite (twilio_sms_projection_not_dict _ Hd). discriminate.
Qed.

Lemma get_all_length message keys vals :
  get_all message keys = Return vals -> length vals = length keys.
Proof.
  revert vals. induction keys as [|k rest IH]; intros vals.
  - simpl. intros H. injection H as <-. reflexivity.
  - cbn [get_all]. destruct (py_get message k); cbn [rbind]; [|discriminate].
    destruct (get_all message rest) as [vs|]; cbn [rbind]; [|discriminate].
    intros H. injection H as <-. simpl. rewrite (IH vs eq_refl). reflexivity.
Qed.

Lemma message_event_projection_arity message cols vals :
  message_event_projection message = Return (cols, vals) ->
  length cols = length vals.
Proof.
  unfold message_event_projection.
  destruct (get_all message _) as [vs|] eqn:Hg; cbn [rbind]; [|discriminate].
  intros H. injection H as <- <-.
  rewrite (get_all_length _ _ _ Hg). reflexivity.
Qed.

Lemma image_event_projection_arity message cols vals :
  image_event_projection message = Return (cols, vals) ->
  length cols = length vals.
Proof.
  unfold image_event_projection.
  destruct (get_all message _) as [vs|] eqn:Hg; cbn [rbind]; [|discriminate].
  intros H. injection H as <- <-.
  rewrite (get_all_length _ _ _ Hg). reflexivity.
Qed.

(** Steps over one [rbind]: the bound computation returned, or the whole
    projection raised and the hypothesis is absurd. *)
Ltac step_rbind H :=
  match type of H with
  | rbind ?r _ = Return _ =>
      let x := fresh "x" in
      destruct r as [x|] eqn:?; cbn [rbind] in H; [|discriminate H]
  end.

Lemma outgoing_twilio_sms_projection_arity E message cols vals :
  outgoing_twilio_sms_projection E message = Return (cols, vals) ->
  length cols = length vals.
Proof.
  unfold outgoing_twilio_sms_projection. intros H.
  repeat step_rbind H.
  apply Return_pair_inv in H. destruct H as [<- <-]. reflexivity.
Qed.

Lemma callback_event_projection_arity E message cols vals :
  callback_event_projection E message = Return (cols, vals) ->
  length cols = length vals.
Proof.
  unfold callback_event_projection. intros H.
  repeat step_rbind H.
  apply Return_pair_inv in H. destruct H as [<- <-]. cbn [length].
  match goal with
  | Hg : get_all _ _ = Return _ |- _ =>
      rewrite (get_all_length _ _ _ Hg)
  end.
  reflexivity.
Qed.

(** ** Optional fields *)

Lemma str_of_nat_inj i j : str_of_nat i = str_of_nat j -> i = j.
Proof.
  unfold str_of_nat. intros H.
  apply (f_equal NilEmpty.uint_of_string) in H.
  rewrite !NilEmpty.usu in H. injection H as H.
  apply (f_equal Nat.of_uint) in H.
  rewrite !DecimalNat.Unsigned.of_to in H. exact H.
Qed.

Lemma append_char_inj c (a b : string) :
  (a ++ String c EmptyString)%string = (b ++ String c EmptyString)%string ->
  a = b.
Proof.
  revert b. induction a as [|x a IH]; intros [|y b]; cbn; intros H.
  - reflexivity.
  - injection H as _ H. destruct b; discriminate.
  - injection H as _ H. destruct a; discriminate.
  - injection H as -> H. rewrite (IH _ H). reflexivity.
Qed.

Lemma quoted_inj a b : quoted a = quoted b -> a = b.
Proof.
  unfold quoted, dq. cbn. intros H. injection H as H.
  exact (append_char_inj _ _ _ H).
Qed.

Lemma in_location_columns d locs c :
  In c (map quoted (filter (present d) locs)) <->
  exists loc, In loc locs /\ c = quoted loc /\ present d loc = true.
Proof.
  rewrite in_map_iff. split.
  - intros (loc & <- & Hin). apply filter_In in Hin.
    exists loc. tauto.
  - intros (loc & Hin & -> & Hp). exists loc.
    split; [reflexivity|]. apply filter_In. tauto.
Qed.

Lemma in_media_columns tc uc d idxs c :
  In c (flat_map (media_columns_at tc uc d) idxs) <->
  exists i, In i idxs
    /\ ((c = tc i /\ present d (media_type_key i) = true)
        \/ (c = uc i /\ present d (media_url_key i) = true)).
Proof.
  rewrite in_flat_map. unfold media_columns_at.
  split; intros (i & Hi & H); exists i; (split; [exact Hi|]);
    destruct (present d (media_type_key i));
    destruct (present d (media_url_key i)); cbn in *;
    intuition (try discriminate; auto).
Qed.

Lemma present_not_none d k :
  present d k = true -> get_or_none d k <> VNone.
Proof. unfold present. intros H Hn. rewrite Hn in H. discriminate. Qed.

Lemma optional_values_truthy d locs idxs v :
  In v (map (get_or_none d) (filter (present d) locs)
        ++ flat_map (media_values_at d) idxs) ->
  truthy v = true /\ v <> VNone.
Proof.
  intros H. apply in_app_or in H. destruct H as [H|H].
  - apply in_map_iff in H. destruct H as (loc & <- & Hin).
    apply filter_In in Hin. destruct Hin as [_ Hp].
    split; [exact Hp | exact (present_not_none _ _ Hp)].
  - apply in_flat_map in H. destruct H as (i & _ & H).
    unfold media_values_at in H.
    destruct (present d (media_type_key i)) eqn:Ht;
      destruct (present d (media_url_key i)) eqn:Hu;
      cbn in H; split_in H; try contradiction; subst v;
      (split; [assumption | apply present_not_none; assumption]).
Qed.

(** The shape both SMS projections share satisfies the specification of
    optional columns, provided the column names do not collide. *)
Lemma optional_columns_shape static keys locs tc uc d :
  length static = length keys ->
  distinct_names static locs tc uc ->
  optional_columns_spec static locs tc uc d
    (static ++ map quoted (filter (present d) locs)
       ++ flat_map (media_columns_at tc uc d) range10)
    (map (get_or_none d) keys
       ++ map (get_or_none d) (filter (present d) locs)
       ++ flat_map (media_values_at d) range10).
Proof.
  intros Hlen (Hls & Hms & Hlm & Htu & Htt & Huu).
  assert (Hrange : forall i, In i range10 <-> i < 10).
  { intros i. unfold range10. rewrite in_seq. lia. }
  unfold optional_columns_spec. repeat split.
  - rewrite !length_app, !length_map, media_flat_length, Hlen. reflexivity.
  - intros c Hc. rewrite !in_app_iff in Hc. destruct Hc as [Hc|[Hc|Hc]].
    + left. exact Hc.
    + right. left. apply in_location_columns. exact Hc.
    + right. right. apply in_media_columns in Hc.
      destruct Hc as (i & Hi & H). exists i. rewrite <- Hrange. tauto.
  - intros Hc. rewrite !in_app_iff in Hc. destruct Hc as [Hc|[Hc|Hc]].
    + destruct (Hls _ H Hc).
    + apply in_location_columns in Hc. destruct Hc as (loc' & _ & He & Hp).
      apply quoted_inj in He. subst loc'. exact Hp.
    + apply in_media_columns in Hc. destruct Hc as (i & _ & [[He _]|[He _]]);
        destruct (Hlm loc i H) as [H1 H2]; contradiction.
  - intros Hp. rewrite !in_app_iff. right. left.
    apply in_location_columns. exists loc. tauto.
  - rewrite !in_app_iff in H. destruct H as [Hc|[Hc|Hc]].
    + destruct (proj1 (Hms i) Hc).
    + apply in_location_columns in Hc. destruct Hc as (loc & Hin & He & _).
      destruct (Hlm loc i Hin) as [H1 _]. symmetry in He. contradiction.
    + apply in_media_columns in Hc.
      destruct Hc as (j & Hj & [[He _]|[He _]]).
      * apply Htt in He. subst j. apply Hrange. exact Hj.
      * destruct (Htu _ _ He).
  - rewrite !in_app_iff in H. destruct H as [Hc|[Hc|Hc]].
    + destruct (proj1 (Hms i) Hc).
    + apply in_location_columns in Hc. destruct Hc as (loc & Hin & He & _).
      destruct (Hlm loc i Hin) as [H1 _]. symmetry in He. contradiction.
    + apply in_media_columns in Hc.
      destruct Hc as (j & Hj & [[He Hp]|[He _]]).
      * apply Htt in He. subst j. exact Hp.
      * destruct (Htu _ _ He).
  - intros [Hi Hp]. rewrite !in_app_iff. right. right.
    apply in_media_columns. exists i. rewrite Hrange. tauto.
  - rewrite !in_app_iff in H. destruct H as [Hc|[Hc|Hc]].
    + destruct (proj2 (Hms i) Hc).
    + apply in_location_columns in Hc. destruct Hc as (loc & Hin & He & _).
      destruct (Hlm loc i Hin) as [_ H2]. symmetry in He. contradiction.
    + apply in_media_columns in Hc.
      destruct Hc as (j & Hj & [[He _]|[He _]]).
      * symmetry in He. destruct (Htu _ _ He).
      * apply Huu in He. subst j. apply Hrange. exact Hj.
  - rewrite !in_app_iff in H. destruct H as [Hc|[Hc|Hc]].
    + destruct (proj2 (Hms i) Hc).
    + apply in_location_columns in Hc. destruct Hc as (loc & Hin & He & _).
      destruct (Hlm loc i Hin) as [_ H2]. symmetry in He. contradiction.
    + apply in_media_columns in Hc.
      destruct Hc as (j & Hj & [[He _]|[He Hp]]).
      * symmetry in He. destruct (Htu _ _ He).
      * apply Huu in He. subst j. exact Hp.
  - intros [Hi Hp]. rewrite !in_app_iff. right. right.
    apply in_media_columns. exists i. rewrite Hrange. tauto.
  - rewrite Hlen, <- (length_map (get_or_none d) keys) in H.
    rewrite skipn_app, skipn_all, Nat.sub_diag in H. cbn [skipn app] in H.
    exact (proj1 (optional_values_truthy _ _ _ _ H)).
  - rewrite Hlen, <- (length_map (get_or_none d) keys) in H.
    rewrite skipn_app, skipn_all, Nat.sub_diag in H. cbn [skipn app] in H.
    exact (proj2 (optional_values_truthy _ _ _ _ H)).
Qed.

(** Settles a claimed equation or membership between column names that
    differ at a fixed character. *)
Ltac names_differ H :=
  cbn -[str_of_nat] in H; split_in H; try discriminate H; try contradiction.

Lemma app_names_distinct :
  distinct_names (map quoted app_static_keys) app_loc_types
    app_type_column app_url_column.
Proof.
  unfold distinct_names, app_type_column, app_url_column, quoted, dq.
  repeat split.
  - intros loc Hin H. cbn in Hin. split_in Hin; try contradiction; subst loc;
      names_differ H.
  - intros H. names_differ H.
  - intros H. names_differ H.
  - intros H0. cbn in H. split_in H; try contradiction; subst loc;
      names_differ H0.
  - intros H0. cbn in H. split_in H; try contradiction; subst loc;
      names_differ H0.
  - intros i j H. names_differ H.
  - intros i j H. cbn -[str_of_nat] in H. injection H as H.
    apply append_char_inj in H. exact (str_of_nat_inj _ _ H).
  - intros i j H. cbn -[str_of_nat] in H. injection H as H.
    apply append_char_inj in H. exact (str_of_nat_inj _ _ H).
Qed.

Lemma sms_names_distinct :
  distinct_names sms_static_columns sms_loc_types
    sms_type_column sms_url_column.
Proof.
  unfold distinct_names, sms_type_column, sms_url_column, quoted, dq.
  repeat split.
  - intros loc Hin H. cbn in Hin. split_in Hin; try contradiction; subst loc;
      names_differ H.
  - intros H. names_differ H.
  - intros H. names_differ H.
  - intros H0. cbn in H. split_in H; try contradiction; subst loc;
      names_differ H0.
  - intros H0. cbn in H. split_in H; try contradiction; subst loc;
      names_differ H0.
  - intros i j H. names_differ H.
  - intros i j H. cbn -[str_of_nat] in H. injection H as H.
    exact (str_of_nat_inj _ _ H).
  - intros i j H. cbn -[str_of_nat] in H. injection H as H.
    exact (str_of_nat_inj _ _ H).
Qed.

Lemma present_iff_lookup d k :
  present d k = true <-> exists v, lookup k d = Some v /\ truthy v = true.
Proof.
  split; [apply present_lookup|].
  intros (v & Hl & Ht). unfold present, get_or_none. rewrite Hl. exact Ht.
Qed.

(** C8: in both SMS projections ([callback] of [app.py] and
    [handle_twilio_sms]) a location or media column appears only for a key
    the message holds (and holds with a truthy value), so an absent optional
    field yields no column, and the value that goes with such a column is
    never [None]; the media columns that can appear are those of the
    indices 0 to 9: a key such as [MediaUrl10] never yields a column.  A
    message that is not an object yields no projection at all. *)
Theorem optional_fields_only_when_present message cols vals cols' vals' :
  callback_projection message = Return (cols, vals) ->
  twilio_sms_projection message = Return (cols', vals') ->
  exists d,
    message = VDict d
    /\ optional_columns_spec (map quoted app_static_keys) app_loc_types
         app_type_column app_url_column d cols vals
    /\ optional_columns_spec sms_static_columns sms_loc_types
         sms_type_column sms_url_column d cols' vals'
    /\ (forall k, present d k = true <->
                  exists v, lookup k d = Some v /\ truthy v = true)
    /\ (forall k, lookup k d = None -> present d k = false).
Proof.
  intros Happ Hsms. destruct (is_dict message) eqn:Hd.
  - apply is_dict_true in Hd. destruct Hd as [d ->]. exists d.
    rewrite callback_projection_dict in Happ.
    rewrite twilio_sms_projection_dict in Hsms.
    apply Return_pair_inv in Happ. destruct Happ as [<- <-].
    apply Return_pair_inv in Hsms. destruct Hsms as [<- <-].
    split; [reflexivity|]. split; [|split; [|split]].
    + apply optional_columns_shape;
        [apply length_map | exact app_names_distinct].
    + apply optional_columns_shape;
        [reflexivity | exact sms_names_distinct].
    + apply present_iff_lookup.
    + intros k Hk. unfold present, get_or_none. rewrite Hk. reflexivity.
  - rewrite (callback_projection_not_dict _ Hd) in Happ. discriminate.
Qed.

(** The key [MediaUrl10] of the sample message has no column. *)
Lemma media_index_ten_has_no_column :
  callback_projection mms_message = Return (mms_columns, mms_values)
  /\ twilio_sms_projection mms_message
     = Return (mms_sms_columns, mms_sms_values)
  /\ ~ In (app_url_column 10) mms_columns.
Proof.
  split; [reflexivity|]. split; [reflexivity|].
  destruct (optional_fields_only_when_present mms_message mms_columns mms_values
              mms_sms_columns mms_sms_values eq_refl eq_refl)
    as (d & _ & Happ & _).
  destruct Happ as (_ & _ & _ & _ & Hurl & _).
  intros Hin. apply Hurl in Hin. destruct Hin as [Hlt _].
  exact (Nat.lt_irrefl 10 Hlt).
Defined.

(** ** The insert primitive *)

Lemma count_placeholders_skip_char c (s : string) :
  Ascii.eqb c "%" = false ->
  count_placeholders (String c s) = count_placeholders s.
Proof.
  intros Hc. destruct s as [|c' rest]; [reflexivity|].
  cbn [count_placeholders]. rewrite Hc. reflexivity.
Qed.

Lemma count_placeholders_skip (s t : string) :
  percent_free s = true ->
  count_placeholders (s ++ t) = count_placeholders t.
Proof.
  induction s as [|c s IH]; [reflexivity|].
  cbn [percent_free]. intros H. apply andb_true_iff in H.
  destruct H as [Hc Hs]. apply negb_true_iff in Hc.
  change (String c s ++ t)%string with (String c (s ++ t)%string).
  rewrite (count_placeholders_skip_char _ _ Hc). exact (IH Hs).
Qed.

Lemma placeholders_succ n :
  placeholders (S (S n)) = ("%s, " ++ placeholders (S n))%string.
Proof. reflexivity. Qed.

(** One [%s] per requested placeholder, whatever text follows. *)
Lemma count_placeholders_followed n (t : string) :
  count_placeholders (placeholders n ++ t) = n + count_placeholders t.
Proof.
  induction n as [|[|n] IH].
  - reflexivity.
  - reflexivity.
  - rewrite placeholders_succ.
    change (("%s, " ++ placeholders (S n)) ++ t)%string
      with (String "%" (String "s" (String "," (String " "
              (placeholders (S n) ++ t)%string)))).
    change (count_placeholders (String "%" (String "s" (String "," (String " "
              (placeholders (S n) ++ t)%string)))))
      with (S (count_placeholders (String "," (String " "
              (placeholders (S n) ++ t)%string)))).
    rewrite !count_placeholders_skip_char by reflexivity.
    rewrite IH. reflexivity.
Qed.

Lemma count_placeholders_exact n : count_placeholders (placeholders n) = n.
Proof.
  replace (placeholders n) with (placeholders n ++ EmptyString)%string.
  - rewrite count_placeholders_followed. simpl. lia.
  - induction (placeholders n) as [|c s IH]; simpl; congruence.
Qed.

Lemma percent_free_app (s t : string) :
  percent_free (s ++ t) = percent_free s && percent_free t.
Proof.
  induction s as [|c s IH]; [reflexivity|].
  simpl. rewrite IH, andb_assoc. reflexivity.
Qed.

Lemma percent_free_concat (cols : list string) :
  forallb percent_free cols = true ->
  percent_free (String.concat ", " cols) = true.
Proof.
  induction cols as [|c [|c' rest] IH]; intros H.
  - reflexivity.
  - simpl in *. rewrite andb_true_r in H. exact H.
  - change (String.concat ", " (c :: c' :: rest))
      with (c ++ ", " ++ String.concat ", " (c' :: rest))%string.
    cbn [forallb] in H. apply andb_true_iff in H. destruct H as [Hc H].
    rewrite !percent_free_app, Hc, (IH H). reflexivity.
Qed.

(** With identifiers free of [%], the statement holds exactly one
    placeholder per value. *)
Lemma build_insert_query_placeholders table columns values :
  percent_free table = true ->
  forallb percent_free columns = true ->
  count_placeholders (fst (build_insert_query table columns values)) =
  length values.
Proof.
  intros Ht Hc. cbn [build_insert_query fst].
  pose proof (percent_free_concat _ Hc) as Hj.
  rewrite (count_placeholders_skip nl) by reflexivity.
  rewrite (count_placeholders_skip (spaces 8)) by reflexivity.
  rewrite (count_placeholders_skip "INSERT INTO ") by reflexivity.
  rewrite (count_placeholders_skip table) by exact Ht.
  rewrite (count_placeholders_skip " (") by reflexivity.
  rewrite (count_placeholders_skip (String.concat ", " columns)) by exact Hj.
  rewrite (count_placeholders_skip ")") by reflexivity.
  rewrite (count_placeholders_skip nl) by reflexivity.
  rewrite (count_placeholders_skip (spaces 8)) by reflexivity.
  rewrite (count_placeholders_skip "VALUES (") by reflexivity.
  rewrite count_placeholders_followed. simpl. lia.
Qed.

(** [execute_query] executes at most once, and then the text and the
    parameters it was given. *)
Lemma execute_query_executes E query values :
  filter is_execute (trace (execute_query E query values)) =
  match percent_format E query values with
  | Return _ => [PgExecute query values]
  | Raise _ => []
  end.
Proof.
  unfold trace, execute_query, try_except, bind, lift, log, call, emit, ret,
    raise. simpl.
  destruct (percent_format E query values) as [r|e]; simpl.
  - destruct (execute_result E query values) as [e|]; simpl;
      [destruct (isinstance e DatabaseError)|]; reflexivity.
  - destruct (isinstance e DatabaseError); reflexivity.
Qed.

(** C7: [build_insert_query] returns the text
    [INSERT INTO <table> (<columns>) VALUES (<placeholders>)] with exactly one
    [%s] per value and returns the values untouched; the text does not depend
    on what the values are, only on how many there are; and [execute_query]
    hands the cursor that same text with the values as bound parameters,
    the interpolated [resolved_query] being used for the log line only. *)
Theorem parameterized_insert E table columns values :
  let query := fst (build_insert_query table columns values) in
  let params := snd (build_insert_query table columns values) in
  query = (nl ++ spaces 8 ++ "INSERT INTO " ++ table ++ " ("
              ++ String.concat ", " columns ++ ")" ++
           nl ++ spaces 8 ++ "VALUES ("
              ++ String.concat ", " (repeat "%s" (length values)) ++ ")" ++
           nl ++ spaces 4)%string
  /\ count_placeholders (String.concat ", " (repeat "%s" (length values)))
     = length values
  /\ (percent_free table = true -> forallb percent_free columns = true ->
      count_placeholders query = length values)
  /\ params = values
  /\ (forall values' : list value,
        length values' = length values ->
        fst (build_insert_query table columns values') = query)
  /\ (forall ev, In ev (trace (execute_query E query params)) ->
        is_execute ev = true -> ev = PgExecute query values)
  /\ (forall resolved_query,
        percent_format E query params = Return resolved_query ->
        In (PgExecute query values) (trace (execute_query E query params))).
Proof.
  cbv zeta. repeat split.
  - apply (count_placeholders_exact (length values)).
  - apply build_insert_query_placeholders.
  - intros values' Hlen. cbn [build_insert_query fst]. rewrite Hlen.
    reflexivity.
  - intros ev Hin Hex.
    assert (Hf : In ev (filter is_execute
                          (trace (execute_query E
                             (fst (build_insert_query table columns values))
                             (snd (build_insert_query table columns values))))))
      by (apply filter_In; split; assumption).
    rewrite execute_query_executes in Hf.
    destruct (percent_format E _ _); simpl in Hf; [|contradiction].
    destruct Hf as [<-|[]]. reflexivity.
  - intros r Hr.
    assert (Hf : In (PgExecute (fst (build_insert_query table columns values))
                       values)
                   (filter is_execute
                      (trace (execute_query E
                         (fst (build_insert_query table columns values))
                         (snd (build_insert_query table columns values)))))).
    { rewrite execute_query_executes, Hr. left. reflexivity. }
    apply filter_In in Hf. exact (proj1 Hf).
Qed.

(** Two values, two placeholders. *)
Lemma two_values_two_placeholders :
  count_placeholders
    (fst (build_insert_query "messages" ["body"; "from_num"]%string
            [VStr "hello"; VStr "+1"])) = 2.
Proof.
  exact (proj1 (proj2 (proj2
           (parameterized_insert (healthy_env (Raise KeyError))
              "messages" ["body"; "from_num"]%string
              [VStr "hello"; VStr "+1"]))) eq_refl eq_refl).
Defined.

(** ** The per-delivery callback *)

Lemma PgExecute_inj q vs q' vs' :
  PgExecute q vs = PgExecute q' vs' -> q = q' /\ vs = vs'.
Proof. intros H. injection H as -> ->. split; reflexivity. Qed.

Lemma acks_follow_commit_split t :
  forall committed pre post tag,
    acks_follow_commit committed t = true ->
    t = pre ++ BasicAck tag :: post ->
    committed = true \/ In PgCommit pre.
Proof.
  induction t as [|e t IH]; intros committed pre post tag Hscan Heq.
  - destruct pre; discriminate.
  - destruct pre as [|e' pre].
    + injection Heq as -> _. simpl in Hscan.
      apply andb_true_iff in Hscan. left. exact (proj1 Hscan).
    + injection Heq as <- Heq.
      destruct e; simpl in Hscan;
        try (destruct (IH _ _ _ _ Hscan Heq) as [Hc|Hin];
             [left; exact Hc | right; right; exact Hin]).
      * right. left. reflexivity.
      * apply andb_true_iff in Hscan. destruct Hscan as [Hc _].
        left. exact Hc.
Qed.

(** On every path an ack, if any, follows the commit. *)
Lemma callback_with_acks_follow_commit cfg E projection body tag :
  acks_follow_commit false (trace (callback_with cfg E projection body tag))
  = true.
Proof. run_callback; reflexivity. Qed.

(** A path acknowledges at most once, with the tag of the delivery, and
    only when the body decoded and the commit returned. *)
Lemma callback_with_acks cfg E projection body tag :
  let t := trace (callback_with cfg E projection body tag) in
  filter is_ack t = []
  \/ (filter is_ack t = [BasicAck tag]
      /\ commit_result E = None
      /\ (exists message, json_loads E body = Return message)
      /\ outcome (callback_with cfg E projection body tag) = Return tt).
Proof.
  cbv zeta. run_callback;
    first [ left; reflexivity
          | right; repeat split; eauto ].
Qed.

(** The callback never hands a delivery back to the broker itself. *)
Lemma callback_with_never_requeues cfg E projection body tag :
  filter is_requeue (trace (callback_with cfg E projection body tag)) = [].
Proof. run_callback; reflexivity. Qed.

(** When the store raises on the statement, no ack is issued. *)
Lemma callback_with_failed_execute cfg E projection body tag q vs e :
  In (PgExecute q vs) (trace (callback_with cfg E projection body tag)) ->
  execute_result E q vs = Some e ->
  filter is_ack (trace (callback_with cfg E projection body tag)) = [].
Proof.
  run_callback; intros Hin Hres; try reflexivity; exfalso;
    cbn [In] in Hin; split_in Hin; try discriminate; try contradiction;
    apply PgExecute_inj in Hin; destruct Hin as [<- <-]; congruence.
Qed.

Lemma arity_check_passes (cols : list string) (vals : list value) :
  length cols = length vals ->
  negb (length cols =? length vals)%nat = false.
Proof. intros ->. rewrite Nat.eqb_refl. reflexivity. Qed.

Lemma arity_check_fails (cols : list string) (vals : list value) :
  length cols <> length vals ->
  negb (length cols =? length vals)%nat = true.
Proof. intros H. apply Nat.eqb_neq in H. rewrite H. reflexivity. Qed.

(** The one path that ends in an ack. *)
Lemma callback_with_success cfg E projection body tag message sender
  cols vals :
  json_loads E body = Return message ->
  py_get message "From" = Return sender ->
  connect_result E = None ->
  cursor_result E = None ->
  projection message = Return (cols, vals) ->
  length cols = length vals ->
  execute_result E (callback_query cfg cols vals) vals = None ->
  commit_result E = None ->
  callback_with cfg E projection body tag init =
  (Return tt, mkWorld (success_trace cfg cols vals tag) (Connection true)).
Proof.
  intros Hj Hg Hc Hcur Hp Hlen Hex Hcom.
  unfold_monad. cbn -[isinstance py_get String.append Nat.eqb nl spaces
                      placeholders].
  rewrite Hj, Hg, Hc. cbn -[isinstance String.append Nat.eqb nl spaces
                            placeholders].
  rewrite Hcur, Hp. cbn -[isinstance String.append Nat.eqb nl spaces
                          placeholders].
  rewrite (arity_check_passes _ _ Hlen).
  cbn -[isinstance String.append Nat.eqb nl spaces placeholders].
  fold (callback_query cfg cols vals). rewrite Hex.
  cbn -[isinstance String.append Nat.eqb nl spaces placeholders].
  rewrite Hcom. reflexivity.
Qed.

Lemma filter_nil_forall {A} (f : A -> bool) (l : list A) :
  filter f l = [] -> forall x, In x l -> f x = false.
Proof.
  intros Hf x Hin. destruct (f x) eqn:Hx; [|reflexivity].
  assert (Hin' : In x (filter f l)) by (apply filter_In; split; assumption).
  rewrite Hf in Hin'. contradiction.
Qed.

Lemma filter_singleton_split {A} (f : A -> bool) (pre post : list A) a b :
  f a = true ->
  filter f (pre ++ a :: post) = [b] ->
  a = b /\ filter f pre = [] /\ filter f post = [].
Proof.
  intros Ha. rewrite filter_app. cbn [filter]. rewrite Ha.
  destruct (filter f pre) as [|x l]; cbn [app].
  - intros H. injection H as -> ->. repeat split.
  - intros H. injection H as _ H. destruct l; discriminate.
Qed.

(** C1: in every run of [callback], a [basic_ack] is issued only after
    [conn.commit()] has been called and has returned, it carries the tag of
    the delivery and is the only one; when the store raises on the insert no
    ack and no requeue (nack, reject, republish) is issued; and a delivery
    that decodes to an object and is inserted and committed without error
    is acknowledged, the ack following the commit. *)
Theorem ack_only_after_commit cfg E body tag :
  let t := trace (callback cfg E body tag) in
  (forall pre post tag',
      t = pre ++ BasicAck tag' :: post ->
      In PgCommit pre /\ commit_result E = None /\ tag' = tag
      /\ (exists message, json_loads E body = Return message)
      /\ (forall ev, In ev (pre ++ post) -> is_ack ev = false))
  /\ (forall q vs e,
        In (PgExecute q vs) t -> execute_result E q vs = Some e ->
        forall ev, In ev t -> is_ack ev = false /\ is_requeue ev = false)
  /\ (forall d,
        json_loads E body = Return (VDict d) ->
        connect_result E = None -> cursor_result E = None ->
        (forall q vs, execute_result E q vs = None) ->
        commit_result E = None ->
        exists cols vals,
          callback_projection (VDict d) = Return (cols, vals)
          /\ t = success_trace cfg cols vals tag).
Proof.
  cbv zeta. unfold callback. split; [|split].
  - intros pre post tag' Hsplit.
    pose proof (callback_with_acks_follow_commit cfg E callback_projection
                  body tag) as Hscan.
    destruct (acks_follow_commit_split _ _ _ _ _ Hscan Hsplit) as [Hf|Hin];
      [discriminate|].
    destruct (callback_with_acks cfg E callback_projection body tag)
      as [Hnone|(Hone & Hcommit & Hdec & _)].
    + rewrite Hsplit in Hnone.
      pose proof (filter_nil_forall _ _ Hnone (BasicAck tag')) as Habs.
      assert (Hmem : In (BasicAck tag') (pre ++ BasicAck tag' :: post))
        by (apply in_or_app; right; left; reflexivity).
      specialize (Habs Hmem). discriminate.
    + rewrite Hsplit in Hone.
      destruct (filter_singleton_split is_ack pre post (BasicAck tag') _
                  eq_refl Hone)
        as (Htag & Hpre & Hpost).
      injection Htag as ->.
      repeat split; try assumption.
      intros ev Hev. apply in_app_or in Hev. destruct Hev as [Hev|Hev].
      * exact (filter_nil_forall _ _ Hpre ev Hev).
      * exact (filter_nil_forall _ _ Hpost ev Hev).
  - intros q vs e Hin Hres ev Hev. split.
    + exact (filter_nil_forall _ _
               (callback_with_failed_execute _ _ _ _ _ _ _ _ Hin Hres) ev Hev).
    + exact (filter_nil_forall _ _
               (callback_with_never_requeues cfg E callback_projection
                  body tag) ev Hev).
  - intros d Hj Hc Hcur Hex Hcom.
    eexists. eexists. split; [apply callback_projection_dict|].
    unfold trace.
    erewrite callback_with_success;
      [reflexivity | exact Hj | apply py_get_dict | exact Hc | exact Hcur
      | apply callback_projection_dict | | apply Hex | exact Hcom].
    rewrite !length_app, !length_map, media_flat_length. reflexivity.
Qed.

(** A small SMS on a healthy store: the commit is among the ten events
    before the ack. *)
Lemma sms_ack_follows_commit :
  In PgCommit
    (firstn 10 (trace (callback default_config
                         (healthy_env (Return sms_message)) sms_body 7)))
  /\ commit_result (healthy_env (Return sms_message)) = None.
Proof.
  destruct (ack_only_after_commit default_config
              (healthy_env (Return sms_message)) sms_body 7) as [H _].
  destruct (H (firstn 10 (trace (callback default_config
                                   (healthy_env (Return sms_message))
                                   sms_body 7)))
              [PgClose] 7%N eq_refl) as (Hin & Hcommit & _).
  split; [exact Hin | exact Hcommit].
Defined.

(** C2, as stated, fails: a body on which [json.loads] raises
    [JSONDecodeError] is logged and left unacknowledged. *)
Lemma malformed_body_not_acked :
  json_loads (healthy_env (Raise JSONDecodeError)) truncated_body
  = Raise JSONDecodeError
  /\ trace (callback default_config (healthy_env (Raise JSONDecodeError))
              truncated_body 7)
     = [Log INFO "Callback triggered.";
        Log ERROR "Failed to process message: %s"]
  /\ count_acks (trace (callback default_config
                          (healthy_env (Raise JSONDecodeError))
                          truncated_body 7)) <> 1.
Proof. repeat split. vm_compute. discriminate. Qed.

(** What a failed decode leads to, whatever [json.loads] raises. *)
Lemma callback_with_decode_failure cfg E projection body tag e :
  json_loads E body = Raise e ->
  callback_with cfg E projection body tag init =
  (if caught_by_callback e then Return tt else Raise e,
   mkWorld (Log INFO "Callback triggered." ::
            if caught_by_callback e
            then [Log ERROR "Failed to process message: %s"] else [])
           NoConnection).
Proof.
  intros He. unfold caught_by_callback. unfold_monad. cbn -[isinstance].
  rewrite He.
  destruct (isinstance e JSONDecodeError || isinstance e KeyError);
    reflexivity.
Qed.

(** C2 (amended): a delivery whose body fails JSON decoding with
    [JSONDecodeError] is logged and not persisted: no database call is made,
    no acknowledgment and no requeue is issued, and the callback returns;
    the trace is the same two log lines for every such delivery, so a
    redelivery of the same bytes has the same outcome. *)
Theorem decode_failure_logged_not_acked cfg E body tag e :
  json_loads E body = Raise e ->
  isinstance e JSONDecodeError = true ->
  let t := trace (callback cfg E body tag) in
  t = [Log INFO "Callback triggered.";
       Log ERROR "Failed to process message: %s"]
  /\ filter is_pg t = []
  /\ count_acks t = 0
  /\ filter is_requeue t = []
  /\ outcome (callback cfg E body tag) = Return tt.
Proof.
  intros He Hcls. cbv zeta. unfold trace, outcome, callback.
  rewrite (callback_with_decode_failure _ _ _ _ _ _ He).
  unfold caught_by_callback. rewrite Hcls. repeat split.
Qed.

(** The truncated body: no ack. *)
Lemma truncated_body_logged_not_acked :
  count_acks (trace (callback default_config
                       (healthy_env (Raise JSONDecodeError))
                       truncated_body 7)) = 0.
Proof.
  exact (proj1 (proj2 (proj2
           (decode_failure_logged_not_acked default_config
              (healthy_env (Raise JSONDecodeError)) truncated_body 7
              JSONDecodeError eq_refl eq_refl)))).
Defined.

(** The arity check, taken alone: it raises and leaves the world as it is. *)
Lemma checked_insert_mismatch cfg E cols vals w :
  length cols <> length vals ->
  checked_insert cfg E cols vals w = (Raise ValueError, w).
Proof.
  intros Hne. unfold checked_insert.
  rewrite (arity_check_fails _ _ Hne). reflexivity.
Qed.

(** With mismatched lists no path reaches [cursor.execute] or the ack. *)
Lemma callback_with_mismatch cfg E projection body tag message cols vals :
  json_loads E body = Return message ->
  projection message = Return (cols, vals) ->
  length cols <> length vals ->
  filter is_execute (trace (callback_with cfg E projection body tag)) = []
  /\ filter is_ack (trace (callback_with cfg E projection body tag)) = [].
Proof.
  intros Hj Hp Hne. pose proof (arity_check_fails _ _ Hne) as Hchk.
  run_callback; try (split; reflexivity); exfalso;
    match goal with
    | H : projection ?a = Return ?p |- _ =>
        assert (p = (cols, vals)) by congruence; subst p; cbn [fst snd] in *;
        congruence
    end.
Qed.

(** Where the check is reached, it is what ends the callback. *)
Lemma callback_with_mismatch_raises cfg E projection body tag message sender
  cols vals :
  json_loads E body = Return message ->
  py_get message "From" = Return sender ->
  connect_result E = None ->
  cursor_result E = None ->
  projection message = Return (cols, vals) ->
  length cols <> length vals ->
  callback_with cfg E projection body tag init =
  (Raise ValueError,
   mkWorld [Log INFO "Callback triggered.";
            Log DEBUG "Received message: %s";
            Log DEBUG "Processing message from %s";
            PgConnect;
            Log INFO "Connected to Postgres database.";
            PgCursor;
            PgCursorClose;
            PgClose] (Connection true)).
Proof.
  intros Hj Hg Hc Hcur Hp Hne.
  unfold_monad. cbn -[isinstance py_get String.append Nat.eqb nl spaces
                      placeholders].
  rewrite Hj, Hg, Hc. cbn -[isinstance String.append Nat.eqb nl spaces
                            placeholders].
  rewrite Hcur, Hp. cbn -[isinstance String.append Nat.eqb nl spaces
                          placeholders].
  rewrite (arity_check_fails _ _ Hne). reflexivity.
Qed.

(** C3: when the column list and the value list built for a message differ
    in length, the arity check raises [ValueError] before the statement is
    built: [cursor.execute] is never called for that delivery and no ack is
    issued; where the check is reached the callback ends with that
    [ValueError], the cursor and the connection closed. *)
Theorem arity_mismatch_blocks_insert cfg E projection body tag message
  cols vals :
  json_loads E body = Return message ->
  projection message = Return (cols, vals) ->
  length cols <> length vals ->
  let t := trace (callback_with cfg E projection body tag) in
  (forall ev, In ev t -> is_execute ev = false /\ is_ack ev = false)
  /\ (forall w, checked_insert cfg E cols vals w = (Raise ValueError, w))
  /\ (forall sender,
        py_get message "From" = Return sender ->
        connect_result E = None -> cursor_result E = None ->
        outcome (callback_with cfg E projection body tag) = Raise ValueError
        /\ In PgCursor t /\ In PgClose t).
Proof.
  intros Hj Hp Hne. cbv zeta.
  destruct (callback_with_mismatch cfg E projection body tag _ _ _ Hj Hp Hne)
    as [Hex Hack].
  split; [|split].
  - intros ev Hev. split.
    + exact (filter_nil_forall _ _ Hex ev Hev).
    + exact (filter_nil_forall _ _ Hack ev Hev).
  - intros w. apply checked_insert_mismatch. exact Hne.
  - intros sender Hg Hc Hcur. unfold outcome, trace.
    rewrite (callback_with_mismatch_raises _ _ _ _ _ _ _ _ _ Hj Hg Hc Hcur
               Hp Hne).
    cbn [fst snd events In]. repeat split; tauto.
Qed.

(** One column and no value: the check ends the callback. *)
Lemma mismatched_projection_raises :
  length ["body"%string] <> length (@nil value)
  /\ outcome (callback_with default_config
                (healthy_env (Return sms_message))
                (fun _ => Return (["body"%string], []))
                sms_body 7) = Raise ValueError.
Proof.
  split; [exact (fun H => Nat.neq_succ_0 0 H)|].
  exact (proj1 (proj2 (proj2
           (arity_mismatch_blocks_insert default_config
              (healthy_env (Return sms_message))
              (fun _ => Return (["body"%string], []))
              sms_body 7 sms_message ["body"%string] []
              eq_refl eq_refl (fun H => Nat.neq_succ_0 0 H)))
           (VStr "+1") eq_refl eq_refl eq_refl)).
Defined.

(** C4, as stated, fails: a body that decodes to a JSON value other than
    an object makes [message.get] raise [AttributeError], which no clause of
    [callback] catches; it is not a connection-level failure, and it leaves
    [start_consuming] and the [while True] loop of [consume_messages]. *)
Lemma non_object_body_escapes :
  outcome (callback default_config (healthy_env (Return (VList [])))
             list_body 7) = Raise AttributeError
  /\ isinstance AttributeError AMQPError = false
  /\ isinstance AttributeError PsycopgError = false
  /\ outcome (consume_messages default_config
                [quiet_attempt
                   [{| d_env := healthy_env (Return (VList []));
                       d_body := list_body; d_tag := 7 |}] None])
     = Raise AttributeError.
Proof. repeat split. Qed.

(** An exception that leaves the callback is of a class its outer clause
    does not name. *)
Lemma callback_with_escapes cfg E projection body tag e :
  outcome (callback_with cfg E projection body tag) = Raise e ->
  caught_by_callback e = false.
Proof.
  unfold caught_by_callback.
  run_callback; intros H; try discriminate; injection H as <-;
    first [ assumption | reflexivity ].
Qed.

(** An object, and a store whose failures are database errors: every path
    returns. *)
Lemma callback_with_returns cfg E projection body tag message sender
  cols vals :
  json_loads E body = Return message ->
  py_get message "From" = Return sender ->
  projection message = Return (cols, vals) ->
  length cols = length vals ->
  (forall e, connect_result E = Some e -> isinstance e PsycopgError = true) ->
  (forall e, cursor_result E = Some e -> isinstance e DatabaseError = true) ->
  (forall q vs e,
     execute_result E q vs = Some e -> isinstance e DatabaseError = true) ->
  (forall e, commit_result E = Some e -> isinstance e DatabaseError = true) ->
  outcome (callback_with cfg E projection body tag) = Return tt.
Proof.
  intros Hj Hg Hp Hlen Hc Hcur Hex Hcom.
  pose proof (arity_check_passes _ _ Hlen) as Hchk.
  run_callback; try reflexivity; exfalso;
    repeat match goal with
           | H : forall e, Some ?x = Some e -> _ |- _ =>
               pose proof (H _ eq_refl); clear H
           | H : forall e, ?f = Some e -> _, H' : ?f = Some ?x |- _ =>
               pose proof (H _ H'); clear H
           | H : forall q vs e, execute_result ?E q vs = Some e -> _,
             H' : execute_result ?E _ _ = Some _ |- _ =>
               pose proof (H _ _ _ H'); clear H
           | H : projection ?a = Return ?p |- _ =>
               assert (p = (cols, vals)) by congruence; subst p;
               cbn [fst snd] in *; clear H
           end;
    congruence.
Qed.

(** C4 (amended): an exception leaves [callback] only if it is neither a
    [JSONDecodeError] nor a [KeyError]; and when the body is undecodable
    with [JSONDecodeError] or decodes to an object, and the store fails, if
    it does, with [psycopg.Error] on connecting and with [DatabaseError] on
    the cursor, the insert and the commit, the callback returns normally. *)
Theorem errors_caught_by_class cfg E body tag :
  (forall e,
      outcome (callback cfg E body tag) = Raise e ->
      isinstance e JSONDecodeError = false /\ isinstance e KeyError = false)
  /\ ((forall e, json_loads E body = Raise e ->
                 isinstance e JSONDecodeError = true) ->
      (forall message, json_loads E body = Return message ->
                       is_dict message = true) ->
      (forall e, connect_result E = Some e ->
                 isinstance e PsycopgError = true) ->
      (forall e, cursor_result E = Some e ->
                 isinstance e DatabaseError = true) ->
      (forall q vs e, execute_result E q vs = Some e ->
                      isinstance e DatabaseError = true) ->
      (forall e, commit_result E = Some e ->
                 isinstance e DatabaseError = true) ->
      outcome (callback cfg E body tag) = Return tt).
Proof.
  split.
  - intros e He. apply callback_with_escapes in He.
    apply orb_false_iff in He. exact He.
  - intros Hdec Hobj Hc Hcur Hex Hcom. unfold callback.
    destruct (json_loads E body) as [message|e] eqn:Hj.
    + destruct (is_dict_true _ (Hobj _ eq_refl)) as [d ->].
      apply (callback_with_returns cfg E callback_projection body tag
               (VDict d) _ _ _ Hj (py_get_dict d "From")
               (callback_projection_dict d)); try assumption.
      rewrite !length_app, !length_map, media_flat_length. reflexivity.
    + unfold outcome.
      rewrite (callback_with_decode_failure _ _ _ _ _ _ Hj).
      unfold caught_by_callback. rewrite (Hdec _ eq_refl). reflexivity.
Qed.

(** A constraint violation at the insert is caught: the callback returns. *)
Lemma integrity_error_is_caught :
  outcome (callback default_config
             (rejecting_env (Return sms_message) IntegrityError) sms_body 7)
  = Return tt.
Proof.
  apply (proj2 (errors_caught_by_class default_config
                  (rejecting_env (Return sms_message) IntegrityError)
                  sms_body 7)).
  - intros e H. discriminate H.
  - intros message H. injection H as <-. reflexivity.
  - intros e H. discriminate H.
  - intros e H. discriminate H.
  - intros q vs e H. injection H as <-. reflexivity.
  - intros e H. discriminate H.
Defined.

(** ** The scoped connection *)

Lemma get_db_connection_acquired E A (body : M A) w :
  keeps_connection body ->
  connect_result E = None ->
  connection (snd (get_db_connection E body w)) = Connection true
  /\ (connection (snd (body (at_yield w))) = Connection false ->
      In PgClose (events (snd (get_db_connection E body w))))
  /\ fst (get_db_connection E body w) = fst (body (at_yield w)).
Proof.
  intros Hkeep Hc. unfold_monad. cbn -[isinstance]. rewrite Hc.
  cbn -[isinstance]. fold (at_yield w).
  destruct (Hkeep (at_yield w) false eq_refl) as [c' Hc'].
  destruct (body (at_yield w)) as [[a|e] w2]; cbn -[isinstance] in *.
  - rewrite Hc'. destruct c'; cbn;
      (split; [first [reflexivity | assumption]
              | split; [intros H | reflexivity]]);
      try congruence.
    rewrite !in_app_iff. cbn [In]. tauto.
  - destruct (isinstance e Exception); cbn; rewrite Hc'; destruct c'; cbn;
      (split; [first [reflexivity | assumption]
              | split; [intros H | reflexivity]]);
      try congruence; rewrite !in_app_iff; cbn [In]; tauto.
Qed.

Lemma get_db_connection_refused E A (body : M A) w e :
  connect_result E = Some e ->
  get_db_connection E body w =
  (Raise e,
   mkWorld (events w ++ PgConnect ::
              if isinstance e Exception
              then [Log ERROR "Error establishing database connection: %s"]
              else [])
           NoConnection).
Proof.
  intros Hc. unfold_monad. cbn -[isinstance]. rewrite Hc. cbn -[isinstance].
  destruct (isinstance e Exception); cbn; rewrite <- ?app_assoc; reflexivity.
Qed.

(** The connection of [callback]: closed on every path that got one, absent
    and unused on every path that did not. *)
Lemma callback_with_connection cfg E projection body tag :
  let t := trace (callback_with cfg E projection body tag) in
  (In PgConnect t -> connect_result E = None ->
   final_connection (callback_with cfg E projection body tag)
   = Connection true /\ In PgClose t)
  /\ (forall e, connect_result E = Some e ->
      final_connection (callback_with cfg E projection body tag)
      = NoConnection
      /\ (filter is_pg t = [] \/ filter is_pg t = [PgConnect])).
Proof.
  cbv zeta. run_callback; (split; [intros Hin Hc | intros x Hc]);
    try discriminate;
    try (cbn [In] in Hin; split_in Hin; try discriminate; contradiction);
    try (split; [reflexivity
                | cbn [In]; repeat (first [left; reflexivity | right])]);
    try (split; [reflexivity | first [left; reflexivity
                                     | right; reflexivity]]);
    try reflexivity.
Qed.

(** C6: the connection of a [with get_db_connection()] block is closed when
    the block is left, whether its body returns or raises (any exception,
    [Exception] or not), and is closed by the context manager if the body
    left it open; when [psycopg.connect] raises, the body is not run and the
    exception reaches the caller, so no connection is handed out.  The same
    holds for [callback] over [connect_to_postgres]: every path that obtained
    a connection closes it, and a path that did not makes no further
    database call. *)
Theorem scoped_connection_released cfg E A (body : M A) w bytes tag :
  keeps_connection body ->
  (connect_result E = None ->
   connection (snd (get_db_connection E body w)) = Connection true
   /\ (connection (snd (body (at_yield w))) = Connection false ->
       In PgClose (events (snd (get_db_connection E body w))))
   /\ fst (get_db_connection E body w) = fst (body (at_yield w))
   /\ (In PgConnect (trace (callback cfg E bytes tag)) ->
       final_connection (callback cfg E bytes tag) = Connection true
       /\ In PgClose (trace (callback cfg E bytes tag))))
  /\ (forall e,
        connect_result E = Some e ->
        fst (get_db_connection E body w) = Raise e
        /\ connection (snd (get_db_connection E body w)) = NoConnection
        /\ events (snd (get_db_connection E body w)) =
           events w ++ PgConnect ::
             (if isinstance e Exception
              then [Log ERROR "Error establishing database connection: %s"]
              else [])
        /\ final_connection (callback cfg E bytes tag) = NoConnection
        /\ (filter is_pg (trace (callback cfg E bytes tag)) = []
            \/ filter is_pg (trace (callback cfg E bytes tag))
               = [PgConnect])).
Proof.
  intros Hkeep. split.
  - intros Hc.
    destruct (get_db_connection_acquired E A body w Hkeep Hc)
      as (Hclosed & Hev & Hres).
    repeat split; try assumption;
      destruct (callback_with_connection cfg E callback_projection bytes tag)
        as [Hcb _]; apply Hcb; assumption.
  - intros e Hc. rewrite (get_db_connection_refused E A body w e Hc).
    cbn [fst snd events connection].
    destruct (callback_with_connection cfg E callback_projection bytes tag)
      as [_ Hcb].
    destruct (Hcb e Hc) as [H1 H2]. repeat split; assumption.
Qed.

Lemma failing_body_keeps_connection : keeps_connection failing_body.
Proof. intros w c Hc. exists c. exact Hc. Qed.

(** A body that raises [ValueError] leaves through a closed connection. *)
Lemma failing_body_connection_closed :
  keeps_connection failing_body
  /\ connect_result (healthy_env (Return sms_message)) = None
  /\ fst (get_db_connection (healthy_env (Return sms_message)) failing_body
            init) = Raise ValueError
  /\ connection
       (snd (get_db_connection (healthy_env (Return sms_message))
               failing_body init)) = Connection true.
Proof.
  split; [exact failing_body_keeps_connection|]. split; [reflexivity|].
  destruct (proj1 (scoped_connection_released default_config
                     (healthy_env (Return sms_message)) unit failing_body
                     init sms_body 7 failing_body_keeps_connection) eq_refl)
    as (Hclosed & _ & Hres & _).
  split; [exact Hres | exact Hclosed].
Defined.

(** ** The dead-letter pump *)

Lemma retry_callback_run cfg body tag w :
  retry_callback cfg body tag w =
  (Return tt,
   mkWorld (events w ++
            [Log INFO "Retrying message from dead-letter queue.";
             BasicPublish EmptyString (POSTGRES_QUEUE cfg) body;
             BasicAck tag])
           (connection w)).
Proof. unfold_monad. cbn. rewrite <- !app_assoc. reflexivity. Qed.

Lemma dispatch_retry_callback cfg ds w :
  dispatch (fun d => retry_callback cfg (d_body d) (d_tag d)) ds w =
  (Return tt,
   mkWorld (events w ++ flat_map (republish_events cfg) ds) (connection w)).
Proof.
  revert w. induction ds as [|d rest IH]; intros w.
  - cbn. rewrite app_nil_r. destruct w; reflexivity.
  - cbn [dispatch flat_map]. unfold bind at 1.
    rewrite retry_callback_run, IH. cbn [events connection].
    rewrite <- app_assoc. reflexivity.
Qed.

Lemma published_republish cfg ds :
  published (flat_map (republish_events cfg) ds) =
  map (fun d => (EmptyString, POSTGRES_QUEUE cfg, d_body d)) ds.
Proof.
  induction ds as [|d rest IH]; [reflexivity|].
  cbn. unfold published in IH. rewrite IH. reflexivity.
Qed.

Lemma acked_republish cfg ds :
  acked (flat_map (republish_events cfg) ds) = map d_tag ds.
Proof.
  induction ds as [|d rest IH]; [reflexivity|].
  cbn. unfold acked in IH. rewrite IH. reflexivity.
Qed.

(** C5: for every dead-lettered delivery [retry_callback] publishes the body
    it received, unchanged, to the default exchange with the primary queue
    name as routing key, and then acknowledges the delivery; nothing in it
    depends on the body, so a run of deliveries is republished body for body
    and acknowledged tag for tag, in order. *)
Theorem dead_letter_republish cfg body tag ds :
  retry_callback cfg body tag init =
  (Return tt,
   mkWorld [Log INFO "Retrying message from dead-letter queue.";
            BasicPublish EmptyString (POSTGRES_QUEUE cfg) body;
            BasicAck tag] NoConnection)
  /\ outcome (dispatch (fun d => retry_callback cfg (d_body d) (d_tag d)) ds)
     = Return tt
  /\ published
       (trace (dispatch (fun d => retry_callback cfg (d_body d) (d_tag d))
                 ds))
     = map (fun d => (EmptyString, POSTGRES_QUEUE cfg, d_body d)) ds
  /\ acked
       (trace (dispatch (fun d => retry_callback cfg (d_body d) (d_tag d))
                 ds))
     = map d_tag ds.
Proof.
  split; [reflexivity|]. unfold outcome, trace.
  rewrite dispatch_retry_callback. cbn [fst snd events init app].
  split; [reflexivity|]. split.
  - apply published_republish.
  - apply acked_republish.
Qed.

(** ** The reconnection loop *)




(** A delivery is processed the same way whatever came before it: the
    callback reads nothing of the world it starts in. *)
Lemma callback_frame cfg E body tag w :
  fst (callback cfg E body tag w) = outcome (callback cfg E body tag)
  /\ events (snd (callback cfg E body tag w)) =
     events w ++ trace (callback cfg E body tag).
Proof. run_callback; rewrite <- ?app_assoc; split; reflexivity. Qed.






(** The dead-letter consumer waits the same way. *)
Lemma retry_iteration_refused cfg a w :
  connection_refused cfg a ->
  retry_iteration cfg a w =
  (Return tt,
   mkWorld (events w ++
            [Log DEBUG "Attempting to connect to RabbitMQ for retry...";
             BlockingConnection (RABBITMQ_HOST cfg) (RABBITMQ_USER cfg)
               (RABBITMQ_PASS cfg);
             Log ERROR "Failed to connect to RabbitMQ for retry: %s";
             Log DEBUG "Retrying in 5 seconds...";
             Sleep 5])
           (connection w)).
Proof.
  intros (e & He & Hcls). unfold retry_iteration, setup.
  unfold_monad. cbn -[isinstance]. rewrite He. cbn -[isinstance].
  rewrite Hcls. cbn. rewrite <- !app_assoc. reflexivity.
Qed.

Lemma refused_attempt_refused cfg : connection_refused cfg refused_attempt.
Proof. exists AMQPConnectionError. split; reflexivity. Qed.


(** ** The arity invariant *)

(** A handler that logs, projects and inserts executes the statement built
    from its projection, with the projected values as parameters. *)
Lemma handler_executes_projection E tmpl1 tmpl2 table
  (projection : value -> result (list string * list value)) message ev :
  In ev (trace (log DEBUG tmpl1 ;;
                p <- lift (projection message) ;;
                insert_projection E table tmpl2 p)) ->
  is_execute ev = true ->
  exists cols vals,
    projection message = Return (cols, vals)
    /\ ev = PgExecute (fst (build_insert_query table cols vals)) vals.
Proof.
  unfold trace, insert_projection, execute_query.
  unfold try_except, bind, lift, log, call, emit, ret, raise.
  cbn -[isinstance String.append nl spaces placeholders].
  destruct (projection message) as [[cols vals]|e];
    cbn -[isinstance String.append nl spaces placeholders].
  - repeat (case_step;
            cbn -[isinstance String.append nl spaces placeholders]);
      intros Hin Hex; cbn [In] in Hin; split_in Hin; try contradiction;
      subst ev; try discriminate Hex;
      exists cols, vals; split; reflexivity.
  - intros Hin Hex. cbn [In] in Hin. split_in Hin; try contradiction.
    subst ev. discriminate Hex.
Qed.

Lemma inserting_projections_arity E projection message cols vals :
  In projection (inserting_projections E) ->
  projection message = Return (cols, vals) ->
  length cols = length vals.
Proof.
  intros Hin. cbn [inserting_projections In] in Hin. split_in Hin;
    try contradiction; subst projection.
  - apply callback_projection_arity.
  - apply twilio_sms_projection_arity.
  - apply outgoing_twilio_sms_projection_arity.
  - apply message_event_projection_arity.
  - apply image_event_projection_arity.
  - apply callback_event_projection_arity.
Qed.

(** C10: whatever the message, each inserting code path ([callback] and the
    handlers for incoming and outgoing SMS, GroupMe messages, images and
    callbacks) that gets as far as building its two lists builds them with
    the same length; the statement a handler executes is the one built from
    those lists, so it names as many columns as it binds parameters; and
    the arity check of [callback] therefore never fires. *)
Theorem arity_by_construction cfg E projection message cols vals :
  In projection (inserting_projections E) ->
  projection message = Return (cols, vals) ->
  length cols = length vals
  /\ negb (length cols =? length vals)%nat = false
  /\ (forall handler table ev,
        In (handler, projection, table) (inserting_handlers cfg E) ->
        In ev (trace (handler message)) -> is_execute ev = true ->
        ev = PgExecute (fst (build_insert_query table cols vals)) vals).
Proof.
  intros Hin Hp.
  pose proof (inserting_projections_arity E _ _ _ _ Hin Hp) as Hlen.
  split; [exact Hlen|]. split; [exact (arity_check_passes _ _ Hlen)|].
  intros handler table ev Hh Hev Hex.
  assert (Hshape : exists cols' vals',
             projection message = Return (cols', vals')
             /\ ev = PgExecute (fst (build_insert_query table cols' vals'))
                      vals').
  { cbn [inserting_handlers In] in Hh. split_in Hh; try contradiction;
      injection Hh as <- <- <-;
      eapply handler_executes_projection; eassumption. }
  destruct Hshape as (cols' & vals' & Hp' & ->).
  rewrite Hp in Hp'. apply Return_pair_inv in Hp'. destruct Hp' as [<- <-].
  reflexivity.
Qed.

(** The sample message in [handle_twilio_sms]: thirteen and thirteen. *)
Lemma mms_projection_arity :
  twilio_sms_projection mms_message = Return (mms_sms_columns, mms_sms_values)
  /\ length mms_sms_columns = length mms_sms_values.
Proof.
  split; [reflexivity|].
  exact (proj1 (arity_by_construction default_config
                  (healthy_env (Raise KeyError)) twilio_sms_projection
                  mms_message mms_sms_columns mms_sms_values
                  (or_intror (or_introl eq_refl)) eq_refl)).
Defined.

(** ** The handler registry *)

Lemma dict_get_set_eq {V} k (v : V) d : dict_get k (dict_set k v d) = Some v.
Proof.
  induction d as [|[k' v'] d IH]; cbn.
  - rewrite String.eqb_refl. reflexivity.
  - destruct (String.eqb k k') eqn:Hk; cbn.
    + rewrite String.eqb_refl. reflexivity.
    + rewrite Hk. exact IH.
Qed.

Lemma dict_get_set_ne {V} k k' (v : V) d :
  k <> k' -> dict_get k' (dict_set k v d) = dict_get k' d.
Proof.
  intros Hne. induction d as [|[k0 v0] d IH]; cbn.
  - destruct (String.eqb k' k) eqn:Hk; [|reflexivity].
    apply String.eqb_eq in Hk. congruence.
  - destruct (String.eqb k k0) eqn:Hk; cbn.
    + apply String.eqb_eq in Hk. subst k0.
      destruct (String.eqb k' k) eqn:Hk'; [|reflexivity].
      apply String.eqb_eq in Hk'. congruence.
    + destruct (String.eqb k' k0); [reflexivity | exact IH].
Qed.

Lemma dict_set_keys_fresh {V} k (v : V) d :
  dict_get k d = None -> map fst (dict_set k v d) = map fst d ++ [k].
Proof.
  induction d as [|[k' v'] d IH]; cbn; [reflexivity|].
  destruct (String.eqb k k'); [discriminate|].
  intros H. cbn. rewrite (IH H). reflexivity.
Qed.

Lemma dict_set_keys_bound {V} k (v : V) v0 d :
  dict_get k d = Some v0 -> map fst (dict_set k v d) = map fst d.
Proof.
  induction d as [|[k' v'] d IH]; cbn; [discriminate|].
  destruct (String.eqb k k') eqn:Hk.
  - apply String.eqb_eq in Hk. subst k'. reflexivity.
  - intros H. cbn. rewrite (IH H). reflexivity.
Qed.

(** X1: registering a handler makes it the one found under its tag, whatever
    was registered there before (the last registration wins), leaves every
    other tag as it was, and returns the handler unchanged; a tag already in
    the registry keeps its place and a new one is added last. *)
Theorem register_message_handler_lookup {H : Type} message_type (func : H)
  handlers :
  snd (register_message_handler message_type func handlers) = func
  /\ dict_get message_type
       (fst (register_message_handler message_type func handlers))
     = Some func
  /\ (forall other,
        message_type <> other ->
        dict_get other
          (fst (register_message_handler message_type func handlers))
        = dict_get other handlers)
  /\ (dict_get message_type handlers = None ->
      map fst (fst (register_message_handler message_type func handlers))
      = map fst handlers ++ [message_type])
  /\ (forall old,
        dict_get message_type handlers = Some old ->
        map fst (fst (register_message_handler message_type func handlers))
        = map fst handlers).
Proof.
  unfold register_message_handler. cbn [fst snd].
  split; [reflexivity|]. split; [apply dict_get_set_eq|].
  split; [intros other Hne; apply dict_get_set_ne; exact Hne|].
  split; [apply dict_set_keys_fresh|].
  intros old. apply dict_set_keys_bound.
Qed.

(** Overwriting [groupme.msg] in the module's registry. *)
Lemma reregistered_handler_wins :
  "groupme.msg"%string <> "groupme.img"%string
  /\ map fst
       (fst (register_message_handler "groupme.msg"
               handle_twilio_call_events
               (registered_handlers default_config
                  (healthy_env (Raise KeyError)))))
     = registry_tags.
Proof.
  split; [discriminate|].
  exact (proj2 (proj2 (proj2 (proj2
           (register_message_handler_lookup "groupme.msg"
              handle_twilio_call_events
              (registered_handlers default_config
                 (healthy_env (Raise KeyError))))))) _ eq_refl).
Defined.

Lemma dict_get_none_iff {V} k (d : list (string * V)) :
  dict_get k d = None <-> ~ In k (map fst d).
Proof.
  induction d as [|[k' v] d IH]; cbn.
  - tauto.
  - destruct (String.eqb k k') eqn:Hk.
    + apply String.eqb_eq in Hk. subst k'. split; [discriminate|].
      intros H. exfalso. apply H. left. reflexivity.
    + apply String.eqb_neq in Hk. rewrite IH. split.
      * intros H [Heq|Hin]; [congruence | exact (H Hin)].
      * intros H Hin. apply H. right. exact Hin.
Qed.

(** X2: once the module is imported the registry holds the eight handlers
    under eight different tags, in source order, none having replaced
    another, and a tag other than those eight finds no handler. *)
Theorem registered_handlers_resolve cfg E :
  registered_handlers cfg E = MESSAGE_HANDLERS cfg E
  /\ map fst (registered_handlers cfg E) = registry_tags
  /\ NoDup registry_tags
  /\ (forall tag,
        dict_get tag (registered_handlers cfg E) = None <->
        ~ In tag registry_tags)
  /\ dict_get "twilio.sms.incoming" (registered_handlers cfg E)
     = Some (handle_twilio_sms cfg E)
  /\ dict_get "groupme.callback" (registered_handlers cfg E)
     = Some (handle_callback_event cfg E).
Proof.
  split; [reflexivity|]. split; [reflexivity|]. split.
  - unfold registry_tags.
    repeat (constructor;
            [cbn [In]; intros H; split_in H; try discriminate H;
             contradiction|]).
    constructor.
  - split; [|split; reflexivity].
    intros tag. rewrite dict_get_none_iff. reflexivity.
Qed.

(** ** What a handler does *)

(** Unfolds a handler down to the outcomes the environment decides. *)
Ltac unfold_handler :=
  unfold handle_twilio_sms, handle_outgoing_twilio_sms, handle_message_event,
    handle_image_event, handle_callback_event, handle_postgres_data,
    handle_twilio_voice_intelligence, handle_twilio_call_events,
    insert_projection, execute_query, try_except, bind, lift, log, call,
    emit, ret, raise.

Lemma logged_insert_runs E tmpl1 tmpl2 table
  (projected : result (list string * list value)) :
  (log DEBUG tmpl1 ;;
   p <- lift projected ;;
   insert_projection E table tmpl2 p) init
  = logged_insert_run E tmpl1 tmpl2 table projected.
Proof.
  unfold logged_insert_run. unfold_handler.
  cbn -[isinstance build_insert_query].
  destruct projected as [[cols vals]|e]; [|reflexivity].
  cbn -[isinstance String.append nl spaces placeholders].
  destruct (percent_format E _ vals) as [r|e];
    cbn -[isinstance String.append nl spaces placeholders].
  - destruct (execute_result E _ vals) as [e|];
      cbn -[isinstance String.append nl spaces placeholders];
      [destruct (isinstance e DatabaseError)|]; reflexivity.
  - destruct (isinstance e DatabaseError); reflexivity.
Qed.

(** Every inserting handler is such a run over its own projection. *)
Lemma inserting_handler_runs cfg E handler projection table message :
  In (handler, projection, table) (inserting_handlers cfg E) ->
  exists tmpl1 tmpl2,
    handler message init
    = logged_insert_run E tmpl1 tmpl2 table (projection message).
Proof.
  intros Hin. cbn [inserting_handlers In] in Hin.
  split_in Hin; try contradiction; injection Hin as <- <- <-;
    eexists; eexists; apply logged_insert_runs.
Qed.

(** Settles one conjunct about an explicit run. *)
Ltac effects_leaf :=
  first
    [ reflexivity
    | solve [auto]
    | intros ev Hin; cbn [In] in Hin; split_in Hin; try contradiction;
      subst ev; reflexivity
    | intros _; reflexivity
    | intros H; discriminate H
    | intros e0 H; discriminate H
    | intros e0 _ H; discriminate H
    | intros e0 H _; injection H as <-; solve [eauto] ].

Lemma logged_insert_effects E tmpl1 tmpl2 table projected :
  let r := logged_insert_run E tmpl1 tmpl2 table projected in
  (forall ev, In ev (events (snd r)) -> is_log ev || is_execute ev = true)
  /\ length (filter is_execute (events (snd r))) <= 1
  /\ connection (snd r) = NoConnection
  /\ (fst r = Return tt ->
      length (filter is_execute (events (snd r))) = 1)
  /\ (forall e, fst r = Raise e ->
        length (filter is_execute (events (snd r))) = 1 ->
        exists q vs, execute_result E q vs = Some e).
Proof.
  cbv zeta. unfold logged_insert_run.
  destruct projected as [[cols vals]|e];
    [destruct (percent_format E _ vals) as [r|e];
     [destruct (execute_result E _ vals) as [e|] eqn:Hex;
      [destruct (isinstance e DatabaseError)|]
     |destruct (isinstance e DatabaseError)]|];
    cbn -[String.append nl spaces placeholders];
    repeat split; effects_leaf.
Qed.

(** X3: whatever the message, a registered handler does nothing to the
    outside world but write log lines and call [cursor.execute], the latter
    at most once: it opens, commits and closes nothing and acknowledges
    nothing. *)
Theorem registered_handler_effects cfg E tag handler message :
  In (tag, handler) (MESSAGE_HANDLERS cfg E) ->
  (forall ev, In ev (trace (handler message)) ->
              is_log ev || is_execute ev = true)
  /\ length (filter is_execute (trace (handler message))) <= 1
  /\ final_connection (handler message) = NoConnection.
Proof.
  intros Hin. unfold trace, final_connection.
  cbn [MESSAGE_HANDLERS In] in Hin.
  split_in Hin; try contradiction; injection Hin as _ <-;
    try (cbn; repeat split; effects_leaf);
    match goal with
    | |- context [?h cfg E message init] =>
        destruct (inserting_handler_runs cfg E (h cfg E) _ _ message
                    ltac:(cbn [inserting_handlers In]; eauto 10))
          as (t1 & t2 & ->)
    end;
    match goal with
    | |- context [logged_insert_run E ?a ?b ?t ?p] =>
        destruct (logged_insert_effects E a b t p) as (H1 & H2 & H3 & _)
    end; repeat split; assumption.
Qed.

(** The GroupMe message handler on the sample SMS. *)
Lemma groupme_handler_effects :
  length (filter is_execute
            (trace (handle_message_event default_config
                      (healthy_env (Raise KeyError)) sms_message))) <= 1.
Proof.
  exact (proj1 (proj2
           (registered_handler_effects default_config
              (healthy_env (Raise KeyError)) "groupme.msg"
              (handle_message_event default_config
                 (healthy_env (Raise KeyError))) sms_message
              (or_intror (or_intror (or_intror (or_intror (or_intror
                 (or_introl eq_refl))))))))).
Defined.

(** X4: an inserting handler returns normally exactly when its two lists
    are built, the interpolation of the statement for the log succeeds and
    [cursor.execute] returns; then it has executed that one statement. *)
Theorem inserting_handler_returns_iff cfg E handler projection table
  message :
  In (handler, projection, table) (inserting_handlers cfg E) ->
  (outcome (handler message) = Return tt <->
   exists cols vals resolved_query,
     projection message = Return (cols, vals)
     /\ percent_format E (fst (build_insert_query table cols vals)) vals
        = Return resolved_query
     /\ execute_result E (fst (build_insert_query table cols vals)) vals
        = None)
  /\ (outcome (handler message) = Return tt ->
      length (filter is_execute (trace (handler message))) = 1).
Proof.
  intros Hin. unfold outcome, trace.
  destruct (inserting_handler_runs cfg E _ _ _ message Hin)
    as (t1 & t2 & ->).
  split.
  - unfold logged_insert_run.
    destruct (projection message) as [[cols vals]|e].
    + destruct (percent_format E _ vals) as [r|e] eqn:Hf.
      * destruct (execute_result E _ vals) as [e|] eqn:Hex; cbn [fst].
        -- split; [discriminate|].
           intros (c & v & r' & Hp & _ & Hex').
           apply Return_pair_inv in Hp. destruct Hp as [<- <-]. congruence.
        -- split; [|reflexivity]. intros _. exists cols, vals, r.
           repeat split; assumption.
      * cbn [fst]. split; [discriminate|].
        intros (c & v & r' & Hp & Hf' & _).
        apply Return_pair_inv in Hp. destruct Hp as [<- <-]. congruence.
    + cbn [fst]. split; [discriminate|].
      intros (c & v & r' & Hp & _). discriminate Hp.
  - exact (proj1 (proj2 (proj2 (proj2
             (logged_insert_effects E t1 t2 table (projection message)))))).
Qed.

(** The incoming-SMS handler on the sample message and a healthy store. *)
Lemma twilio_sms_handler_returns :
  outcome (handle_twilio_sms default_config
             (healthy_env (Raise KeyError)) mms_message) = Return tt.
Proof.
  apply (proj1 (inserting_handler_returns_iff default_config
                  (healthy_env (Raise KeyError)) _ twilio_sms_projection
                  (MESSAGES_TABLE default_config) mms_message
                  (or_introl eq_refl))).
  exists mms_sms_columns, mms_sms_values,
    (fst (build_insert_query (MESSAGES_TABLE default_config)
            mms_sms_columns mms_sms_values)).
  repeat split.
Defined.

(** ** Messages a handler cannot project *)

Lemma get_all_not_dict message k keys :
  is_dict message = false ->
  get_all message (k :: keys) = Raise AttributeError.
Proof.
  intros H. cbn [get_all]. rewrite (py_get_not_dict _ _ H). reflexivity.
Qed.

Lemma inserting_projection_not_dict cfg E handler projection table message :
  In (handler, projection, table) (inserting_handlers cfg E) ->
  is_dict message = false ->
  projection message = Raise AttributeError.
Proof.
  intros Hin Hd. cbn [inserting_handlers In] in Hin.
  split_in Hin; try contradiction; injection Hin as _ <- _.
  - apply twilio_sms_projection_not_dict. exact Hd.
  - unfold outgoing_twilio_sms_projection.
    rewrite (py_get_not_dict _ _ Hd). reflexivity.
  - unfold message_event_projection.
    rewrite (get_all_not_dict _ _ _ Hd). reflexivity.
  - unfold image_event_projection.
    rewrite (get_all_not_dict _ _ _ Hd). reflexivity.
  - unfold callback_event_projection.
    rewrite (py_get_not_dict _ _ Hd). reflexivity.
Qed.

(** X5: an inserting handler given a message that is not a JSON object (a
    list, a string, a number, [null]) raises [AttributeError] at its first
    [message.get], after its opening log line and before any statement is
    built or executed. *)
Theorem inserting_handler_rejects_non_object cfg E handler projection table
  message :
  In (handler, projection, table) (inserting_handlers cfg E) ->
  is_dict message = false ->
  outcome (handler message) = Raise AttributeError
  /\ filter is_execute (trace (handler message)) = []
  /\ exists template, trace (handler message) = [Log DEBUG template].
Proof.
  intros Hin Hd. unfold outcome, trace.
  destruct (inserting_handler_runs cfg E _ _ _ message Hin)
    as (t1 & t2 & ->).
  rewrite (inserting_projection_not_dict _ _ _ _ _ _ Hin Hd).
  cbn. repeat split. exists t1. reflexivity.
Qed.

(** The GroupMe callback handler on a JSON list. *)
Lemma groupme_callback_rejects_list :
  outcome (handle_callback_event default_config
             (healthy_env (Raise KeyError)) (VList []))
  = Raise AttributeError.
Proof.
  exact (proj1 (inserting_handler_rejects_non_object default_config
                  (healthy_env (Raise KeyError)) _ _ _ (VList [])
                  (or_intror (or_intror (or_intror (or_intror
                     (or_introl eq_refl)))))
                  eq_refl)).
Defined.

(** X6: [handle_outgoing_twilio_sms] needs a string under [timestamp]: a
    missing key or any other value has no usable [replace] and raises
    [AttributeError] ([TypeError] for a datetime, whose [replace] takes no
    string), and a string that [datetime.fromisoformat] rejects raises the
    parser's exception, in both cases before anything is executed;
    otherwise the four values are the message id, the recipient, the body
    (each [None] if missing) and the parsed timestamp, in the order of the
    four columns. *)
Theorem outgoing_sms_needs_timestamp cfg E d :
  ((forall s, get_or_none d "timestamp" <> VStr s) ->
   outcome (handle_outgoing_twilio_sms cfg E (VDict d))
   = Raise (replace_error (get_or_none d "timestamp"))
   /\ filter is_execute
        (trace (handle_outgoing_twilio_sms cfg E (VDict d))) = [])
  /\ (lookup "timestamp" d = None ->
      outcome (handle_outgoing_twilio_sms cfg E (VDict d))
      = Raise AttributeError)
  /\ (forall s e,
        get_or_none d "timestamp" = VStr s ->
        fromisoformat E (replace_char "Z" "+00:00" s) = Raise e ->
        outcome (handle_outgoing_twilio_sms cfg E (VDict d)) = Raise e
        /\ filter is_execute
             (trace (handle_outgoing_twilio_sms cfg E (VDict d))) = [])
  /\ (forall s t,
        get_or_none d "timestamp" = VStr s ->
        fromisoformat E (replace_char "Z" "+00:00" s) = Return t ->
        outgoing_twilio_sms_projection E (VDict d)
        = Return ([quoted "wbor_message_id"; quoted "recipient_number";
                   quoted "body"; quoted "timestamp"],
                  [get_or_none d "wbor_message_id";
                   get_or_none d "recipient_number";
                   get_or_none d "body"; t])).
Proof.
  assert (Hrun : handle_outgoing_twilio_sms cfg E (VDict d) init
                 = logged_insert_run E
                     "Handling twilio.sms.outgoing message: %s"
                     "Executing `twilio.sms.outgoing` query: %s"
                     (SENT_MESSAGES_TABLE cfg)
                     (outgoing_twilio_sms_projection E (VDict d)))
    by apply logged_insert_runs.
  unfold outcome, trace. rewrite Hrun.
  unfold outgoing_twilio_sms_projection. rewrite !py_get_dict.
  cbn [rbind]. split; [|split; [|split]].
  - intros Hne.
    destruct (get_or_none d "timestamp") as [| | | |s| | |];
      try (cbn; split; reflexivity).
    destruct (Hne s eq_refl).
  - intros Hl. unfold get_or_none. rewrite Hl. reflexivity.
  - intros s e Hs He. rewrite Hs. cbn [py_replace_Z rbind]. rewrite He.
    cbn. split; reflexivity.
  - intros s t Hs Ht. rewrite Hs. cbn [py_replace_Z rbind]. rewrite Ht.
    reflexivity.
Qed.

(** An outgoing record without a timestamp. *)
Lemma outgoing_without_timestamp_raises :
  outcome (handle_outgoing_twilio_sms default_config
             (healthy_env (Raise KeyError)) outgoing_without_timestamp)
  = Raise AttributeError.
Proof.
  exact (proj1 (proj1 (outgoing_sms_needs_timestamp default_config
                         (healthy_env (Raise KeyError))
                         [("body", VStr "hi");
                          ("recipient_number", VStr "+1")]%string)
                  (fun s H => ltac:(discriminate H)))).
Defined.

Lemma char_free_app c (a b : string) :
  char_free c (a ++ b) = char_free c a && char_free c b.
Proof.
  induction a as [|x a IH]; [reflexivity|].
  cbn. rewrite IH, andb_assoc. reflexivity.
Qed.

Lemma replace_char_free c new s :
  char_free c new = true -> char_free c (replace_char c new s) = true.
Proof.
  intros Hnew. induction s as [|x s IH]; [reflexivity|].
  cbn [replace_char]. rewrite char_free_app, IH, andb_true_r.
  destruct (Ascii.eqb x c) eqn:Hx; [exact Hnew|].
  cbn. rewrite Hx. reflexivity.
Qed.

Lemma replace_char_id c new s :
  char_free c s = true -> replace_char c new s = s.
Proof.
  induction s as [|x s IH]; [reflexivity|].
  cbn. intros H. apply andb_true_iff in H. destruct H as [Hx Hs].
  apply negb_true_iff in Hx. rewrite Hx, (IH Hs). reflexivity.
Qed.

Lemma replace_char_length c new s :
  String.length (replace_char c new s) + count_char c s
  = String.length s + count_char c s * String.length new.
Proof.
  assert (Happ : forall a b : string,
             String.length (a ++ b) = String.length a + String.length b).
  { intros a b. induction a as [|x a IHa]; cbn; [reflexivity|].
    rewrite IHa. reflexivity. }
  induction s as [|x s IH]; [reflexivity|].
  cbn [replace_char count_char String.length]. rewrite Happ.
  destruct (Ascii.eqb x c); cbn [String.length]; nia.
Qed.

(** X7: the timestamp text [handle_outgoing_twilio_sms] gives to
    [datetime.fromisoformat] never holds a [Z]: every [Z] of the message's
    timestamp has become [+00:00] (five characters more each), a timestamp
    without [Z] is parsed as it is, and so the outcome depends on the parser
    only through what it does on [Z]-free text. *)
Theorem outgoing_timestamp_has_no_Z E E' message s :
  (forall text, char_free "Z" text = true ->
                fromisoformat E text = fromisoformat E' text) ->
  py_get message "timestamp" = Return (VStr s) ->
  outgoing_twilio_sms_projection E message
  = outgoing_twilio_sms_projection E' message
  /\ char_free "Z" (replace_char "Z" "+00:00" s) = true
  /\ String.length (replace_char "Z" "+00:00" s)
     = String.length s + 5 * count_char "Z" s
  /\ (char_free "Z" s = true ->
      py_replace_Z (VStr s) = Return s).
Proof.
  intros Hagree Hts.
  pose proof (replace_char_free "Z" "+00:00" s eq_refl) as Hfree.
  split; [|split; [exact Hfree|split]].
  - unfold outgoing_twilio_sms_projection. rewrite Hts.
    cbn [rbind py_replace_Z]. rewrite (Hagree _ Hfree). reflexivity.
  - pose proof (replace_char_length "Z" "+00:00" s) as Hlen.
    cbn [String.length] in Hlen. lia.
  - intros Hs. cbn [py_replace_Z]. rewrite (replace_char_id _ _ _ Hs).
    reflexivity.
Qed.

(** A Zulu-time stamp: one [Z], five characters more. *)
Lemma zulu_timestamp_rewritten :
  String.length (replace_char "Z" "+00:00" "2024-05-01T12:00:00Z")
  = String.length "2024-05-01T12:00:00Z" + 5 * 1.
Proof.
  exact (proj1 (proj2 (proj2
           (outgoing_timestamp_has_no_Z (healthy_env (Raise KeyError))
              (healthy_env (Raise KeyError))
              (VDict [("timestamp"%string, VStr "2024-05-01T12:00:00Z")])
              "2024-05-01T12:00:00Z" (fun _ _ => eq_refl) eq_refl)))).
Defined.

(** X8: [handle_callback_event] converts before it inserts: when
    [datetime.fromtimestamp] rejects the [created_at] of the message (a
    missing key gives it [None]) or [json.dumps] rejects the attachments,
    the handler raises that exception and executes nothing; otherwise the
    first value is the JSON text of the attachments, that of the empty list
    when the key is missing, the third is the converted time, and the other
    ten are the message's values ([None] if missing) in column order. *)
Theorem callback_event_converts_first cfg E d :
  (forall e,
      fromtimestamp E (get_or_none d "created_at") = Raise e ->
      outcome (handle_callback_event cfg E (VDict d)) = Raise e
      /\ filter is_execute (trace (handle_callback_event cfg E (VDict d)))
         = [])
  /\ (forall t e,
        fromtimestamp E (get_or_none d "created_at") = Return t ->
        json_dumps E (attachments_or_empty d) = Raise e ->
        outcome (handle_callback_event cfg E (VDict d)) = Raise e
        /\ filter is_execute (trace (handle_callback_event cfg E (VDict d)))
           = [])
  /\ (forall t text,
        fromtimestamp E (get_or_none d "created_at") = Return t ->
        json_dumps E (attachments_or_empty d) = Return text ->
        callback_event_projection E (VDict d)
        = Return
            (map quoted
               ["attachments"; "avatar_url"; "created_at"; "group_id";
                "id"; "name"; "sender_id"; "sender_type"; "source_guid";
                "system"; "text"; "user_id"]%string,
             VStr text :: get_or_none d "avatar_url" :: t
               :: map (get_or_none d)
                    ["group_id"; "id"; "name"; "sender_id"; "sender_type";
                     "source_guid"; "system"; "text"; "user_id"]%string))
  /\ (lookup "attachments" d = None -> attachments_or_empty d = VList []).
Proof.
  assert (Hrun : handle_callback_event cfg E (VDict d) init
                 = logged_insert_run E
                     "Handling groupme.callback message: %s"
                     "Executing `groupme.callback` query: %s"
                     (GROUPME_CALLBACK_TABLE cfg)
                     (callback_event_projection E (VDict d)))
    by apply logged_insert_runs.
  assert (Hatt : py_get_default (VDict d) "attachments" (VList [])
                 = Return (attachments_or_empty d)).
  { unfold py_get_default, attachments_or_empty.
    destruct (lookup "attachments" d); reflexivity. }
  unfold outcome, trace. rewrite Hrun.
  unfold callback_event_projection. rewrite !py_get_dict, Hatt, get_all_dict.
  cbn [rbind]. split; [|split; [|split]].
  - intros e He. rewrite He. split; reflexivity.
  - intros t e Ht He. rewrite Ht. cbn [rbind]. rewrite He.
    split; reflexivity.
  - intros t text Ht Hd. rewrite Ht. cbn [rbind]. rewrite Hd. reflexivity.
  - intros Hl. unfold attachments_or_empty. rewrite Hl. reflexivity.
Qed.

(** A callback whose [created_at] is missing, on a clock that rejects
    [None]. *)
Lemma callback_without_created_at_raises :
  outcome (handle_callback_event default_config
             (healthy_env (Raise KeyError))
             (VDict [("text"%string, VStr "hi")]))
  = Raise TypeError.
Proof.
  exact (proj1 (proj1 (callback_event_converts_first default_config
                         (healthy_env (Raise KeyError))
                         [("text"%string, VStr "hi")])
                  TypeError eq_refl)).
Defined.

(** X9: [execute_query] swallows nothing: it returns exactly when the
    interpolation of the statement for the log succeeds and
    [cursor.execute] returns; when the interpolation raises, the statement
    is not executed and that exception leaves; when [cursor.execute]
    raises, the same exception leaves, after an error log line if it is a
    [DatabaseError]. *)
Theorem execute_query_outcome E query values :
  (outcome (execute_query E query values) = Return tt <->
   (exists resolved_query,
       percent_format E query values = Return resolved_query)
   /\ execute_result E query values = None)
  /\ (forall e,
        percent_format E query values = Raise e ->
        outcome (execute_query E query values) = Raise e
        /\ filter is_execute (trace (execute_query E query values)) = [])
  /\ (forall resolved_query e,
        percent_format E query values = Return resolved_query ->
        execute_result E query values = Some e ->
        outcome (execute_query E query values) = Raise e
        /\ trace (execute_query E query values)
           = [Log DEBUG "Executing query: %s"; PgExecute query values]
             ++ if isinstance e DatabaseError
                then [Log ERROR "Database error: %s"] else []).
Proof.
  unfold outcome, trace, execute_query.
  unfold try_except, bind, lift, log, call, emit, ret, raise.
  cbn -[isinstance].
  destruct (percent_format E query values) as [r|e0].
  - destruct (execute_result E query values) as [e0|];
      cbn -[isinstance].
    + assert (Hraise :
                fst (if isinstance e0 DatabaseError
                     then (Raise e0 : result unit,
                           mkWorld [Log DEBUG "Executing query: %s";
                                    PgExecute query values;
                                    Log ERROR "Database error: %s"]
                                   NoConnection)
                     else (Raise e0,
                           mkWorld [Log DEBUG "Executing query: %s";
                                    PgExecute query values] NoConnection))
                = Raise e0)
        by (destruct (isinstance e0 DatabaseError); reflexivity).
      split; [|split].
      * rewrite Hraise. split; [discriminate|]. intros [_ H]. discriminate H.
      * intros e H. discriminate H.
      * intros r' e _ He. injection He as <-. split; [exact Hraise|].
        destruct (isinstance e0 DatabaseError); reflexivity.
    + split; [|split].
      * split; [|reflexivity]. intros _. split; [exists r|]; reflexivity.
      * intros e H. discriminate H.
      * intros r' e _ He. discriminate He.
  - split; [|split].
    + destruct (isinstance e0 DatabaseError); cbn;
        (split; [discriminate|]); intros [[r' Hr] _]; discriminate Hr.
    + intros e H. injection H as <-.
      destruct (isinstance e0 DatabaseError); split; reflexivity.
    + intros r' e H. discriminate H.
Qed.

(** A statement whose interpolation for the log fails is not executed. *)
Lemma failed_interpolation_blocks_execute :
  filter is_execute
    (trace (execute_query strict_clock_env "INSERT" [VInt 1])) = [].
Proof.
  exact (proj2 (proj1 (proj2 (execute_query_outcome strict_clock_env
                                "INSERT" [VInt 1]))
                  TypeError eq_refl)).
Defined.

(** ** More on the callback *)

(** The statement [callback] executes is the one built from the lists of
    the decoded message, which have the same length. *)
Lemma callback_with_executes cfg E projection body tag q vs :
  In (PgExecute q vs) (trace (callback_with cfg E projection body tag)) ->
  exists message cols,
    json_loads E body = Return message
    /\ projection message = Return (cols, vs)
    /\ q = callback_query cfg cols vs
    /\ length cols = length vs.
Proof.
  run_callback; intros Hin; cbn [In] in Hin; split_in Hin;
    try discriminate Hin; try contradiction;
    apply PgExecute_inj in Hin; destruct Hin as [<- <-];
    match goal with
    | Hj : json_loads E body = Return ?m,
      Hp : projection ?m = Return ?p,
      Hb : negb (_ =? _)%nat = false |- _ =>
        exists m, (fst p); destruct p as [cols vals]; cbn [fst snd] in *;
        apply negb_false_iff, Nat.eqb_eq in Hb;
        repeat split; assumption
    end.
Qed.

(** A decoded message that answers [get] is an object, so [callback]'s own
    lists are built and agree in length. *)
Lemma callback_projection_after_get message sender :
  py_get message "From" = Return sender ->
  exists cols vals,
    callback_projection message = Return (cols, vals)
    /\ negb (length cols =? length vals)%nat = false.
Proof.
  intros Hg. destruct (is_dict message) eqn:Hd.
  - apply is_dict_true in Hd. destruct Hd as [d ->].
    eexists. eexists. split; [apply callback_projection_dict|].
    apply arity_check_passes.
    rewrite !length_app, !length_map, media_flat_length. reflexivity.
  - rewrite (py_get_not_dict _ _ Hd) in Hg. discriminate Hg.
Qed.

(** X10: the database calls of one delivery follow one protocol: none at
    all, or a connect alone (refused), or connect, cursor (refused), close,
    or connect, cursor, execute, cursor close, close, with a commit before
    the close only on the last; so a connection is opened at most once
    and closed exactly once when obtained, the cursor is closed before the
    commit, and nothing is committed that was not executed. *)
Theorem callback_pg_protocol cfg E body tag :
  pg_protocol (pg_calls (trace (callback cfg E body tag))).
Proof.
  unfold pg_protocol, pg_calls, callback.
  run_callback;
    try match goal with
        | Hg : py_get ?m "From" = Return _,
          Hp : callback_projection ?m = _ |- _ =>
            destruct (callback_projection_after_get _ _ Hg)
              as (c & v & Hc & Hlen);
            rewrite Hc in Hp; try discriminate Hp;
            injection Hp as <-; cbn [fst snd] in *; try congruence
        end;
    first [ left; reflexivity
          | right; left; reflexivity
          | right; right; left; reflexivity
          | right; right; right; left; eexists; eexists; reflexivity
          | right; right; right; right; eexists; eexists; reflexivity ].
Qed.

(** X11: when the store cannot be reached ([psycopg.connect] raises a
    [psycopg.Error]) the delivery of an object is logged twice as an error
    and left alone: no cursor, no insert, no close, no ack and no requeue,
    and the callback returns. *)
Theorem callback_store_unreachable cfg E body tag d e :
  json_loads E body = Return (VDict d) ->
  connect_result E = Some e ->
  isinstance e PsycopgError = true ->
  callback cfg E body tag init =
  (Return tt,
   mkWorld [Log INFO "Callback triggered.";
            Log DEBUG "Received message: %s";
            Log DEBUG "Processing message from %s";
            PgConnect;
            Log ERROR "Error connecting to Postgres: %s";
            Log ERROR "No database connection available."]
           NoConnection).
Proof.
  intros Hj Hc He. unfold_monad. cbn -[isinstance py_get].
  rewrite Hj, py_get_dict, Hc. cbn -[isinstance]. rewrite He. reflexivity.
Qed.

(** The sample SMS while the store is down. *)
Lemma sms_while_store_down :
  trace (callback default_config
           (unreachable_env (Return sms_message) OperationalError)
           sms_body 7)
  = [Log INFO "Callback triggered.";
     Log DEBUG "Received message: %s";
     Log DEBUG "Processing message from %s";
     PgConnect;
     Log ERROR "Error connecting to Postgres: %s";
     Log ERROR "No database connection available."].
Proof.
  exact (f_equal (fun r => events (snd r))
           (callback_store_unreachable default_config
              (unreachable_env (Return sms_message) OperationalError)
              sms_body 7 [("From"%string, VStr "+1")] OperationalError
              eq_refl eq_refl eq_refl)).
Defined.

(** ** Columns and values side by side *)

Lemma combine_app {A B} (a1 a2 : list A) (b1 b2 : list B) :
  length a1 = length b1 ->
  combine (a1 ++ a2) (b1 ++ b2) = combine a1 b1 ++ combine a2 b2.
Proof.
  revert b1. induction a1 as [|x a1 IH]; intros [|y b1] H;
    try discriminate H; [reflexivity|].
  cbn. injection H as H. rewrite (IH _ H). reflexivity.
Qed.

Lemma combine_map_same {A B C} (f : A -> B) (g : A -> C) (l : list A) :
  combine (map f l) (map g l) = map (fun x => (f x, g x)) l.
Proof.
  induction l as [|x l IH]; [reflexivity|]. cbn. rewrite IH. reflexivity.
Qed.

Lemma filter_map_swap {A B} (f : B -> bool) (g : A -> B) (l : list A) :
  filter f (map g l) = map g (filter (fun x => f (g x)) l).
Proof.
  induction l as [|x l IH]; [reflexivity|].
  cbn. destruct (f (g x)); cbn; rewrite IH; reflexivity.
Qed.

Lemma filter_flat_map_swap {A B} (f : B -> bool) (g : A -> list B)
  (l : list A) :
  filter f (flat_map g l) = flat_map (fun x => filter f (g x)) l.
Proof.
  induction l as [|x l IH]; [reflexivity|].
  cbn. rewrite filter_app, IH. reflexivity.
Qed.

Lemma combine_media tc uc d idxs :
  combine (flat_map (media_columns_at tc uc d) idxs)
          (flat_map (media_values_at d) idxs)
  = map (fun kc => (snd kc, get_or_none d (fst kc)))
      (filter (fun kc => present d (fst kc))
         (flat_map (fun i => [(media_type_key i, tc i);
                              (media_url_key i, uc i)]) idxs)).
Proof.
  induction idxs as [|i idxs IH]; [reflexivity|].
  cbn [flat_map]. rewrite combine_app by apply media_at_length.
  rewrite IH, filter_app, map_app. f_equal.
  unfold media_columns_at, media_values_at. cbn [filter app fst].
  destruct (present d (media_type_key i));
    destruct (present d (media_url_key i)); reflexivity.
Qed.

(** The shape both SMS projections share, read as pairs. *)
Lemma sms_shape_pairs static_cols keys locs tc uc d :
  length static_cols = length keys ->
  combine
    (static_cols ++ map quoted (filter (present d) locs)
       ++ flat_map (media_columns_at tc uc d) range10)
    (map (get_or_none d) keys
       ++ map (get_or_none d) (filter (present d) locs)
       ++ flat_map (media_values_at d) range10)
  = projected_pairs (combine keys static_cols)
      (map (fun loc => (loc, quoted loc)) locs
       ++ flat_map (fun i => [(media_type_key i, tc i);
                              (media_url_key i, uc i)]) range10) d.
Proof.
  intros Hlen. unfold projected_pairs.
  rewrite combine_app by (rewrite length_map; exact Hlen).
  rewrite combine_app by (rewrite !length_map; reflexivity).
  rewrite combine_media, combine_map_same.
  rewrite filter_app, !map_app, filter_map_swap, map_map. cbn [fst snd].
  f_equal.
  clear tc uc locs. revert keys Hlen.
  induction static_cols as [|c cs IH]; intros [|k ks] H;
    try discriminate H; [reflexivity|].
  cbn. injection H as H. rewrite (IH _ H). reflexivity.
Qed.

Lemma projected_pairs_length static optional d :
  length static <= length (projected_pairs static optional d)
  <= length static + length optional.
Proof.
  unfold projected_pairs. rewrite length_map, length_app.
  pose proof (filter_length_le (fun kc => present d (fst kc)) optional).
  lia.
Qed.

(** X12: in both SMS projections the value at each position is the value
    the message holds under the key of the column at that position: the
    (column, value) pairs are those of the static fields, in order and with
    [None] for a missing one, followed by those of the optional fields the
    message holds with a truthy value, location before media and media by
    index.  So [callback] inserts between 9 and 33 columns and
    [handle_twilio_sms] between 11 and 35. *)
Theorem sms_projections_aligned message cols vals cols' vals' :
  callback_projection message = Return (cols, vals) ->
  twilio_sms_projection message = Return (cols', vals') ->
  exists d,
    message = VDict d
    /\ combine cols vals
       = projected_pairs app_static_fields app_optional_fields d
    /\ length cols = length vals
    /\ 9 <= length cols <= 33
    /\ firstn 9 vals = map (get_or_none d) app_static_keys
    /\ combine cols' vals'
       = projected_pairs sms_static_fields sms_optional_fields d
    /\ length cols' = length vals'
    /\ 11 <= length cols' <= 35
    /\ firstn 11 vals' = map (get_or_none d) sms_static_keys.
Proof.
  intros Happ Hsms.
  pose proof (callback_projection_arity _ _ _ Happ) as Hlen.
  pose proof (twilio_sms_projection_arity _ _ _ Hsms) as Hlen'.
  destruct (is_dict message) eqn:Hd.
  - apply is_dict_true in Hd. destruct Hd as [d ->]. exists d.
    rewrite callback_projection_dict in Happ.
    rewrite twilio_sms_projection_dict in Hsms.
    apply Return_pair_inv in Happ. destruct Happ as [Hc Hv].
    apply Return_pair_inv in Hsms. destruct Hsms as [Hc' Hv'].
    assert (Hpairs : combine cols vals
                     = projected_pairs app_static_fields
                         app_optional_fields d).
    { rewrite <- Hc, <- Hv.
      exact (sms_shape_pairs (map quoted app_static_keys) app_static_keys
               app_loc_types app_type_column app_url_column d eq_refl). }
    assert (Hpairs' : combine cols' vals'
                      = projected_pairs sms_static_fields
                          sms_optional_fields d).
    { rewrite <- Hc', <- Hv'.
      exact (sms_shape_pairs sms_static_columns sms_static_keys
               sms_loc_types sms_type_column sms_url_column d eq_refl). }
    pose proof (projected_pairs_length app_static_fields
                  app_optional_fields d) as Hb.
    pose proof (projected_pairs_length sms_static_fields
                  sms_optional_fields d) as Hb'.
    rewrite <- Hpairs in Hb. rewrite <- Hpairs' in Hb'.
    rewrite length_combine in Hb, Hb'.
    change (length app_static_fields) with 9 in Hb.
    change (length app_optional_fields) with 24 in Hb.
    change (length sms_static_fields) with 11 in Hb'.
    change (length sms_optional_fields) with 24 in Hb'.
    repeat split; try assumption; try lia.
    + rewrite <- Hv. reflexivity.
    + rewrite <- Hv'. reflexivity.
  - rewrite (callback_projection_not_dict _ Hd) in Happ. discriminate.
Qed.

(** The sample message: twelve columns, each beside its own value. *)
Lemma mms_pairs_aligned :
  combine mms_columns mms_values
  = [(quoted "MessageSid", VNone); (quoted "AccountSid", VNone);
     (quoted "MessagingServiceSid", VNone); (quoted "From", VStr "+1");
     (quoted "To", VNone); (quoted "Body", VNone);
     (quoted "NumSegments", VNone); (quoted "NumMedia", VNone);
     (quoted "ApiVersion", VNone); (quoted "FromCity", VStr "Brunswick");
     (quoted "MediaContentType0", VStr "image/png");
     (quoted "MediaUrl0", VStr "https://example/0")]
  /\ 9 <= length mms_columns <= 33.
Proof.
  destruct (sms_projections_aligned mms_message mms_columns mms_values
              mms_sms_columns mms_sms_values eq_refl eq_refl)
    as (d & Hd & Hpairs & _ & Hb & _).
  split; [reflexivity | exact Hb].
Defined.

(** ** The text of the statement *)

Lemma media_columns_at_ext tc uc d d' i :
  present d (media_type_key i) = present d' (media_type_key i) ->
  present d (media_url_key i) = present d' (media_url_key i) ->
  media_columns_at tc uc d i = media_columns_at tc uc d' i.
Proof. intros H1 H2. unfold media_columns_at. rewrite H1, H2. reflexivity. Qed.

Lemma flat_map_ext_in {A B} (f g : A -> list B) (l : list A) :
  (forall a, In a l -> f a = g a) -> flat_map f l = flat_map g l.
Proof.
  induction l as [|x l IH]; [reflexivity|].
  intros H. cbn. rewrite (H x (or_introl eq_refl)), IH; [reflexivity|].
  intros a Ha. apply H. right. exact Ha.
Qed.

(** The optional keys of a projection with location keys [locs] are those
    and the two media keys of each index. *)
Lemma optional_keys_in (locs : list string) (tc uc : nat -> string) :
  let keys :=
    map fst (map (fun loc => (loc, quoted loc)) locs
             ++ flat_map (fun i => [(media_type_key i, tc i);
                                    (media_url_key i, uc i)]) range10) in
  (forall loc, In loc locs -> In loc keys)
  /\ (forall i, In i range10 ->
                In (media_type_key i) keys /\ In (media_url_key i) keys).
Proof.
  cbv zeta. rewrite map_app, map_map. cbn [fst]. rewrite map_id. split.
  - intros loc Hin. apply in_or_app. left. exact Hin.
  - intros i Hi.
    assert (Hpair : forall kc,
               In kc [(media_type_key i, tc i); (media_url_key i, uc i)] ->
               In (fst kc)
                 (map fst
                    (flat_map (fun i => [(media_type_key i, tc i);
                                         (media_url_key i, uc i)])
                       range10))).
    { intros kc Hkc. apply in_map. apply in_flat_map. exists i.
      split; assumption. }
    split; apply in_or_app; right.
    + apply (Hpair (media_type_key i, tc i)). left. reflexivity.
    + apply (Hpair (media_url_key i, uc i)). right. left. reflexivity.
Qed.

(** The columns of the shape both SMS projections share are decided by
    which optional keys the object holds with a truthy value. *)
Lemma optional_columns_ext static locs tc uc d d' :
  (forall k,
      In k (map fst (map (fun loc => (loc, quoted loc)) locs
                     ++ flat_map (fun i => [(media_type_key i, tc i);
                                            (media_url_key i, uc i)])
                          range10)) ->
      present d k = present d' k) ->
  static ++ map quoted (filter (present d) locs)
    ++ flat_map (media_columns_at tc uc d) range10
  = static ++ map quoted (filter (present d') locs)
      ++ flat_map (media_columns_at tc uc d') range10.
Proof.
  intros Hsame. destruct (optional_keys_in locs tc uc) as [Hloc Hmedia].
  rewrite (filter_ext_in (present d) (present d') locs)
    by (intros loc Hin; apply Hsame, Hloc, Hin).
  rewrite (flat_map_ext_in (media_columns_at tc uc d)
             (media_columns_at tc uc d') range10); [reflexivity|].
  intros i Hi. destruct (Hmedia i Hi) as [Ht Hu].
  apply media_columns_at_ext; apply Hsame; assumption.
Qed.

(** X13: the text [callback] and [handle_twilio_sms] send to the store
    depends on the message only through which optional keys it holds (with
    a truthy value): two messages that agree on that, on the optional keys
    of the projection alone, yield the same columns and the same statement,
    whatever their values and whatever static fields they hold. *)
Theorem statement_text_ignores_values cfg d d' cols vals cols' vals'
  scols svals scols' svals' :
  callback_projection (VDict d) = Return (cols, vals) ->
  callback_projection (VDict d') = Return (cols', vals') ->
  twilio_sms_projection (VDict d) = Return (scols, svals) ->
  twilio_sms_projection (VDict d') = Return (scols', svals') ->
  ((forall k, In k app_optional_keys -> present d k = present d' k) ->
   cols = cols'
   /\ callback_query cfg cols vals = callback_query cfg cols' vals')
  /\ ((forall k, In k sms_optional_keys -> present d k = present d' k) ->
      scols = scols'
      /\ fst (build_insert_query (MESSAGES_TABLE cfg) scols svals)
         = fst (build_insert_query (MESSAGES_TABLE cfg) scols' svals')).
Proof.
  intros H1 H2 H3 H4.
  pose proof (callback_projection_arity _ _ _ H1) as L1.
  pose proof (callback_projection_arity _ _ _ H2) as L2.
  pose proof (twilio_sms_projection_arity _ _ _ H3) as L3.
  pose proof (twilio_sms_projection_arity _ _ _ H4) as L4.
  rewrite callback_projection_dict in H1, H2.
  rewrite twilio_sms_projection_dict in H3, H4.
  apply Return_pair_inv in H1. destruct H1 as [C1 _].
  apply Return_pair_inv in H2. destruct H2 as [C2 _].
  apply Return_pair_inv in H3. destruct H3 as [C3 _].
  apply Return_pair_inv in H4. destruct H4 as [C4 _].
  split; intros Hsame.
  - assert (Hc : cols = cols').
    { rewrite <- C1, <- C2.
      exact (optional_columns_ext (map quoted app_static_keys)
               app_loc_types app_type_column app_url_column d d' Hsame). }
    split; [exact Hc|].
    unfold callback_query. rewrite <- Hc in L2.
    rewrite <- Hc, <- L1, <- L2. reflexivity.
  - assert (Hs : scols = scols').
    { rewrite <- C3, <- C4.
      exact (optional_columns_ext sms_static_columns sms_loc_types
               sms_type_column sms_url_column d d' Hsame). }
    split; [exact Hs|].
    cbn [build_insert_query fst]. rewrite <- Hs in L4.
    rewrite <- Hs, <- L3, <- L4. reflexivity.
Qed.

(** Agreement on a list of keys, checked key by key. *)
Lemma present_agree_on keys d d' :
  forallb (fun k => Bool.eqb (present d k) (present d' k)) keys = true ->
  forall k, In k keys -> present d k = present d' k.
Proof.
  intros H k Hin. rewrite forallb_forall in H.
  apply Bool.eqb_prop. exact (H k Hin).
Qed.

(** Two SMS that differ in sender, body and city and hold the same optional
    keys: one statement. *)
Lemma same_statement_for_two_senders :
  (forall k, In k app_optional_keys ->
             present first_sender_message k
             = present second_sender_message k)
  /\ callback_query default_config
       (map quoted app_static_keys
          ++ [quoted "FromCity"; quoted "MediaUrl0"])
       [VNone; VNone; VNone; VStr "+1"; VNone; VStr "hello"; VNone; VNone;
        VNone; VStr "Brunswick"; VStr "https://example/a"]
     = callback_query default_config
         (map quoted app_static_keys
            ++ [quoted "FromCity"; quoted "MediaUrl0"])
         [VNone; VNone; VNone; VStr "+2"; VNone; VNone; VNone; VNone;
          VNone; VStr "Portland"; VStr "https://example/b"].
Proof.
  split; [exact (present_agree_on app_optional_keys first_sender_message
              second_sender_message eq_refl)|].
  exact (proj2 (proj1
           (statement_text_ignores_values default_config
              first_sender_message second_sender_message
              _ _ _ _ _ _ _ _ eq_refl eq_refl eq_refl eq_refl)
           (present_agree_on app_optional_keys first_sender_message
              second_sender_message eq_refl))).
Defined.

Lemma callback_query_placeholders cfg cols (vals : list value) :
  percent_free (POSTGRES_TABLE cfg) = true ->
  forallb percent_free cols = true ->
  count_placeholders (callback_query cfg cols vals) = length vals.
Proof.
  intros Ht Hc. unfold callback_query.
  pose proof (percent_free_concat _ Hc) as Hj.
  rewrite (count_placeholders_skip nl) by reflexivity.
  rewrite (count_placeholders_skip (spaces 24)) by reflexivity.
  rewrite (count_placeholders_skip "INSERT INTO ") by reflexivity.
  rewrite (count_placeholders_skip (POSTGRES_TABLE cfg)) by exact Ht.
  rewrite (count_placeholders_skip " (") by reflexivity.
  rewrite (count_placeholders_skip (String.concat ", " cols)) by exact Hj.
  rewrite (count_placeholders_skip ")") by reflexivity.
  rewrite (count_placeholders_skip nl) by reflexivity.
  rewrite (count_placeholders_skip (spaces 24)) by reflexivity.
  rewrite (count_placeholders_skip "VALUES (") by reflexivity.
  rewrite count_placeholders_followed. cbn. lia.
Qed.

Lemma forallb_map_filter {A B} (f : B -> bool) (g : A -> B) (p : A -> bool)
  (l : list A) :
  forallb f (map g l) = true -> forallb f (map g (filter p l)) = true.
Proof.
  induction l as [|x l IH]; [reflexivity|].
  cbn. intros H. apply andb_true_iff in H. destruct H as [Hx Hl].
  destruct (p x); cbn; [rewrite Hx|]; exact (IH Hl).
Qed.

Lemma forallb_media_columns f tc uc d idxs :
  forallb (fun i => f (tc i) && f (uc i)) idxs = true ->
  forallb f (flat_map (media_columns_at tc uc d) idxs) = true.
Proof.
  induction idxs as [|i idxs IH]; [reflexivity|].
  cbn [forallb flat_map]. intros H. apply andb_true_iff in H.
  destruct H as [Hi Hl]. apply andb_true_iff in Hi. destruct Hi as [Ht Hu].
  rewrite forallb_app, (IH Hl), andb_true_r.
  unfold media_columns_at.
  destruct (present d (media_type_key i));
    destruct (present d (media_url_key i)); cbn; rewrite ?Ht, ?Hu;
    reflexivity.
Qed.

(** No column name of any inserting code path holds a [%]. *)
Lemma inserting_projections_percent_free E projection message cols vals :
  In projection (inserting_projections E) ->
  projection message = Return (cols, vals) ->
  forallb percent_free cols = true.
Proof.
  intros Hin Hp. cbn [inserting_projections In] in Hin.
  split_in Hin; try contradiction; subst projection.
  - destruct (is_dict message) eqn:Hd;
      [|rewrite (callback_projection_not_dict _ Hd) in Hp; discriminate].
    apply is_dict_true in Hd. destruct Hd as [d ->].
    rewrite callback_projection_dict in Hp.
    apply Return_pair_inv in Hp. destruct Hp as [<- _].
    rewrite !forallb_app.
    rewrite (forallb_map_filter percent_free quoted _ app_loc_types)
      by reflexivity.
    rewrite forallb_media_columns by reflexivity. reflexivity.
  - destruct (is_dict message) eqn:Hd;
      [|rewrite (twilio_sms_projection_not_dict _ Hd) in Hp; discriminate].
    apply is_dict_true in Hd. destruct Hd as [d ->].
    rewrite twilio_sms_projection_dict in Hp.
    apply Return_pair_inv in Hp. destruct Hp as [<- _].
    rewrite !forallb_app.
    rewrite (forallb_map_filter percent_free quoted _ sms_loc_types)
      by reflexivity.
    rewrite forallb_media_columns by reflexivity. reflexivity.
  - unfold outgoing_twilio_sms_projection in Hp. repeat step_rbind Hp.
    apply Return_pair_inv in Hp. destruct Hp as [<- _]. reflexivity.
  - unfold message_event_projection in Hp. repeat step_rbind Hp.
    apply Return_pair_inv in Hp. destruct Hp as [<- _]. reflexivity.
  - unfold image_event_projection in Hp. repeat step_rbind Hp.
    apply Return_pair_inv in Hp. destruct Hp as [<- _]. reflexivity.
  - unfold callback_event_projection in Hp. repeat step_rbind Hp.
    apply Return_pair_inv in Hp. destruct Hp as [<- _]. reflexivity.
Qed.

(** X14: every statement the code sends to [cursor.execute], from
    [callback] or from an inserting handler, holds exactly as many [%s]
    placeholders as parameters are bound to it, whatever the message, as
    long as the table name holds no [%]. *)
Theorem executed_statements_bind_all cfg E body tag handler projection
  table message q vs :
  percent_free (POSTGRES_TABLE cfg) = true ->
  percent_free table = true ->
  In (handler, projection, table) (inserting_handlers cfg E) ->
  In (PgExecute q vs) (trace (callback cfg E body tag))
  \/ In (PgExecute q vs) (trace (handler message)) ->
  count_placeholders q = length vs.
Proof.
  intros Ht Ht' Hh [Hin|Hin].
  - apply callback_with_executes in Hin.
    destruct Hin as (m & cols & _ & Hp & -> & _).
    apply callback_query_placeholders; [exact Ht|].
    apply (inserting_projections_percent_free E callback_projection m
             cols vs); [left; reflexivity | exact Hp].
  - assert (Hproj : In projection (inserting_projections E)).
    { cbn [inserting_handlers In] in Hh. split_in Hh; try contradiction;
        injection Hh as _ <- _; cbn [inserting_projections In]; tauto. }
    destruct (projection message) as [[cols vals]|e] eqn:Hp.
    + unfold trace in Hin.
      destruct (inserting_handler_runs cfg E _ _ _ message Hh)
        as (t1 & t2 & Hrun).
      rewrite Hrun, Hp in Hin. unfold logged_insert_run in Hin.
      destruct (percent_format E _ vals) as [r|e];
        [destruct (execute_result E _ vals) as [e|]|];
        try destruct (isinstance e DatabaseError);
        cbn [snd events app In] in Hin; split_in Hin;
        try discriminate Hin; try contradiction;
        apply PgExecute_inj in Hin; destruct Hin as [<- <-];
        (apply build_insert_query_placeholders; [exact Ht'|]);
        exact (inserting_projections_percent_free E projection message
                 cols vals Hproj Hp).
    + unfold trace in Hin.
      destruct (inserting_handler_runs cfg E _ _ _ message Hh)
        as (t1 & t2 & Hrun).
      rewrite Hrun, Hp in Hin. cbn in Hin. split_in Hin;
        try discriminate Hin; contradiction.
Qed.

(** The sample SMS on a healthy store: nine placeholders, nine values. *)
Lemma sms_statement_binds_all :
  count_placeholders
    (callback_query default_config (map quoted app_static_keys)
       [VNone; VNone; VNone; VStr "+1"; VNone; VNone; VNone; VNone; VNone])
  = 9.
Proof.
  exact (executed_statements_bind_all default_config
           (healthy_env (Return sms_message)) sms_body 7
           (handle_twilio_sms default_config
              (healthy_env (Return sms_message)))
           twilio_sms_projection (MESSAGES_TABLE default_config)
           sms_message _ _ eq_refl eq_refl (or_introl eq_refl)
           (or_introl
              (or_intror (or_intror (or_intror (or_intror (or_intror
                 (or_intror (or_introl eq_refl))))))))).
Defined.

(** ** What the consumer loops never do *)

Section EmitsOnly.

Variable P : event -> bool.

Lemma emits_only_ret {A} (a : A) : emits_only P (ret a).
Proof. intros w H. exact H. Qed.

Lemma emits_only_raise {A} e : emits_only P (@raise A e).
Proof. intros w H. exact H. Qed.

Lemma emits_only_emit e : P e = true -> emits_only P (emit e).
Proof.
  intros He w H. cbn. rewrite forallb_app, H. cbn. rewrite He. reflexivity.
Qed.

Lemma emits_only_bind {A B} (m : M A) (k : A -> M B) :
  emits_only P m -> (forall a, emits_only P (k a)) ->
  emits_only P (bind m k).
Proof.
  intros Hm Hk w H. unfold bind. specialize (Hm w H).
  destruct (m w) as [[a|e] w1]; cbn [snd] in *;
    [apply Hk; exact Hm | exact Hm].
Qed.

Lemma emits_only_call e outcome :
  P e = true -> emits_only P (call e outcome).
Proof.
  intros He. unfold call. apply emits_only_bind.
  - apply emits_only_emit. exact He.
  - intros _. destruct outcome;
      [apply emits_only_raise | apply emits_only_ret].
Qed.

Lemma emits_only_try_except {A} (m : M A) handles handler :
  emits_only P m -> (forall e, emits_only P (handler e)) ->
  emits_only P (try_except m handles handler).
Proof.
  intros Hm Hh w H. unfold try_except. specialize (Hm w H).
  destruct (m w) as [[a|e] w1]; cbn [snd] in *; [exact Hm|].
  destruct (handles e); [apply Hh; exact Hm | exact Hm].
Qed.

Lemma emits_only_dispatch (cb : delivery -> M unit) ds :
  (forall d, emits_only P (cb d)) -> emits_only P (dispatch cb ds).
Proof.
  intros Hcb. induction ds as [|d rest IH]; cbn [dispatch].
  - apply emits_only_ret.
  - apply emits_only_bind; [apply Hcb | intros _; exact IH].
Qed.

Lemma emits_only_start_consuming (cb : delivery -> M unit) a :
  P StartConsuming = true ->
  (forall d, emits_only P (cb d)) ->
  emits_only P (start_consuming cb a).
Proof.
  intros Hs Hcb. unfold start_consuming.
  apply emits_only_bind; [apply emits_only_emit; exact Hs|]. intros _.
  apply emits_only_bind; [apply emits_only_dispatch; exact Hcb|]. intros _.
  destruct (ending a); [apply emits_only_raise | apply emits_only_ret].
Qed.

End EmitsOnly.

Lemma callback_emits_only_primary cfg E body tag :
  emits_only primary_event_ok (callback cfg E body tag).
Proof.
  intros w H.
  rewrite (proj2 (callback_frame cfg E body tag w)), forallb_app, H.
  cbn [andb]. clear w H. run_callback; reflexivity.
Qed.

Lemma retry_callback_emits_only cfg body tag :
  emits_only (retry_event_ok cfg) (retry_callback cfg body tag).
Proof.
  intros w H. rewrite retry_callback_run. cbn [snd events].
  rewrite forallb_app, H. cbn. rewrite String.eqb_refl. reflexivity.
Qed.

(** Chains the steps of a loop body. *)
Ltac emits_only_steps :=
  repeat lazymatch goal with
         | |- emits_only _ (setup _ _) =>
             unfold setup; apply emits_only_call; reflexivity
         | |- emits_only _ (log _ _) =>
             unfold log; apply emits_only_emit; reflexivity
         | |- emits_only _ (emit _) => apply emits_only_emit; reflexivity
         | |- emits_only _ (start_consuming _ _) =>
             apply emits_only_start_consuming; [reflexivity | intros ?]
         | |- emits_only _ (try_except _ _ _) =>
             apply emits_only_try_except; [|intros ?]
         | |- emits_only _ (bind _ _) =>
             apply emits_only_bind; [|intros ?]
         end.

(** X15: whatever the broker and the store do, and whatever is delivered,
    the primary consumer never subscribes with automatic acknowledgment,
    never nacks, rejects or publishes a message, and never waits for
    anything but five seconds. *)
Theorem consume_messages_never cfg script :
  forallb primary_event_ok (trace (consume_messages cfg script)) = true.
Proof.
  unfold trace.
  assert (H : emits_only primary_event_ok (consume_messages cfg script)).
  { induction script as [|a rest IH]; cbn [consume_messages].
    - apply emits_only_ret.
    - apply emits_only_bind; [|intros _; exact IH].
      unfold consume_iteration. emits_only_steps.
      apply callback_emits_only_primary. }
  exact (H init eq_refl).
Qed.

(** X16: whatever the broker does and whatever is delivered, the
    dead-letter consumer never subscribes with automatic acknowledgment,
    publishes only to the default exchange under the primary queue name,
    never nacks or rejects, never touches the database or the topology, and
    never waits for anything but five seconds. *)
Theorem retry_dead_messages_never cfg script :
  forallb (retry_event_ok cfg) (trace (retry_dead_messages cfg script))
  = true.
Proof.
  unfold trace.
  assert (H : emits_only (retry_event_ok cfg)
                (retry_dead_messages cfg script)).
  { induction script as [|a rest IH]; cbn [retry_dead_messages].
    - apply emits_only_ret.
    - apply emits_only_bind; [|intros _; exact IH].
      unfold retry_iteration. emits_only_steps.
      apply retry_callback_emits_only. }
  exact (H init eq_refl).
Qed.

(** ** When the broker fails *)

(** X17: an [AMQPConnectionError] raised by any of the connection and
    topology calls of [consume_messages], not only the first, is answered
    the same way: consumption is not started, one wait of five seconds is
    the last thing the iteration does, and the loop goes on.  An exception
    of another class raised by the first call is not caught: it ends the
    loop at once, without a wait, and the rest of the script is never
    met. *)
Theorem consume_setup_failure cfg a rest :
  ((exists ev, In ev (setup_calls cfg) /\ setup_result a ev <> None) ->
   (forall ev e, setup_result a ev = Some e ->
                 isinstance e AMQPConnectionError = true) ->
   outcome (consume_iteration cfg a) = Return tt
   /\ sleeps (trace (consume_iteration cfg a)) = [5%Z]
   /\ ~ In StartConsuming (trace (consume_iteration cfg a))
   /\ exists pre, trace (consume_iteration cfg a) = pre ++ [Sleep 5])
  /\ (forall e,
        setup_result a (BlockingConnection (RABBITMQ_HOST cfg)
                          (RABBITMQ_USER cfg) (RABBITMQ_PASS cfg)) = Some e ->
        isinstance e AMQPConnectionError = false ->
        consume_messages cfg (a :: rest) init
        = (Raise e,
           mkWorld [Log DEBUG "Attempting to connect to RabbitMQ...";
                    BlockingConnection (RABBITMQ_HOST cfg)
                      (RABBITMQ_USER cfg) (RABBITMQ_PASS cfg)]
                   NoConnection)).
Proof.
  split.
  - intros (ev & Hin & Hraise) Hcls.
    unfold outcome, trace, consume_iteration, setup, start_consuming.
    unfold try_except, bind, log, call, emit, ret, raise.
    cbn -[isinstance dispatch].
    repeat match goal with
           | |- context [setup_result a ?c] =>
               let H := fresh "Hs" in
               destruct (setup_result a c) as [?e|] eqn:H;
               [rewrite (Hcls _ _ H)|];
               cbn -[isinstance dispatch]
           end;
      try (split; [reflexivity|]; split; [reflexivity|]; split;
           [ intros Habs; cbn [In] in Habs; split_in Habs;
             try discriminate Habs; contradiction
           | match goal with
             | |- exists pre, ?t = pre ++ _ =>
                 exists (removelast t); reflexivity
             end ]).
    exfalso. cbn [setup_calls In] in Hin.
    split_in Hin; try contradiction; subst ev; congruence.
  - intros e He Hcls. cbn [consume_messages].
    unfold consume_iteration, setup, start_consuming.
    unfold try_except, bind, log, call, emit, ret, raise.
    cbn -[isinstance dispatch]. rewrite He. cbn -[isinstance].
    rewrite Hcls. reflexivity.
Qed.

(** A broker that accepts the connection and refuses the channel. *)
Lemma channel_refusal_waits :
  sleeps (trace (consume_iteration default_config
                   (channel_refused_attempt AMQPConnectionError)))
  = [5%Z].
Proof.
  refine (proj1 (proj2
            (proj1 (consume_setup_failure default_config
                      (channel_refused_attempt AMQPConnectionError) [])
               (ex_intro _ Channel (conj (or_intror (or_introl eq_refl)) _))
               _))).
  - discriminate.
  - intros ev e H. destruct ev; try discriminate H.
    injection H as <-. reflexivity.
Defined.

(** ** The dead-letter loop *)

Lemma retry_messages_refused cfg fails rest w :
  Forall (connection_refused cfg) fails ->
  retry_dead_messages cfg (fails ++ rest) w =
  retry_dead_messages cfg rest
    (mkWorld (events w ++ flat_map (fun _ => retry_refused_events cfg) fails)
             (connection w)).
Proof.
  intros Hall. revert w. induction Hall as [|a fails Ha _ IH]; intros w.
  - cbn. rewrite app_nil_r. destruct w; reflexivity.
  - cbn [app retry_dead_messages flat_map]. unfold bind at 1.
    rewrite (retry_iteration_refused _ _ _ Ha), IH.
    cbn [events connection]. rewrite <- app_assoc. reflexivity.
Qed.

Lemma retry_iteration_accepted cfg a w :
  connection_accepted a ->
  retry_iteration cfg a w =
  (loop_outcome a,
   mkWorld (events w ++ retry_ready_events cfg
              ++ flat_map (republish_events cfg) (deliveries a)
              ++ retry_ending_events a)
           (connection w)).
Proof.
  intros Hacc. unfold retry_iteration, setup, start_consuming.
  unfold try_except, bind, log, call, emit, ret, raise.
  cbn -[isinstance dispatch]. rewrite !Hacc. cbn -[isinstance dispatch].
  rewrite dispatch_retry_callback. cbn -[isinstance].
  unfold loop_outcome, retry_ending_events.
  destruct (ending a) as [e|]; cbn -[isinstance];
    [destruct (isinstance e AMQPConnectionError)|];
    cbn; rewrite <- ?app_assoc; cbn; rewrite ?app_nil_r; reflexivity.
Qed.

Lemma published_app t1 t2 :
  published (t1 ++ t2) = published t1 ++ published t2.
Proof. apply flat_map_app. Qed.

Lemma acked_app t1 t2 : acked (t1 ++ t2) = acked t1 ++ acked t2.
Proof. apply flat_map_app. Qed.

Lemma sleeps_app t1 t2 : sleeps (t1 ++ t2) = sleeps t1 ++ sleeps t2.
Proof. apply flat_map_app. Qed.

Lemma retry_refused_quiet cfg (fails : list attempt) :
  published (flat_map (fun _ => retry_refused_events cfg) fails) = []
  /\ acked (flat_map (fun _ => retry_refused_events cfg) fails) = []
  /\ sleeps (flat_map (fun _ => retry_refused_events cfg) fails)
     = repeat 5%Z (length fails).
Proof.
  induction fails as [|a fails (IH1 & IH2 & IH3)]; [repeat split|].
  cbn [flat_map length repeat].
  rewrite published_app, acked_app, sleeps_app, IH1, IH2, IH3.
  repeat split.
Qed.

Lemma sleeps_republish cfg ds :
  sleeps (flat_map (republish_events cfg) ds) = [].
Proof.
  induction ds as [|d ds IH]; [reflexivity|].
  cbn [flat_map]. rewrite sleeps_app, IH. reflexivity.
Qed.

(** X18: when the broker refuses the connection [N] times and then accepts
    it, [retry_dead_messages] waits [N] times five seconds, subscribes to
    the dead-letter queue and republishes every delivery it is handed, body
    for body and in order, acknowledging each; when consumption ends with a
    connection error it waits once more and goes on, when it ends with any
    other exception the loop ends with it. *)
Theorem retry_dead_messages_run cfg fails ok :
  Forall (connection_refused cfg) fails ->
  connection_accepted ok ->
  trace (retry_dead_messages cfg (fails ++ [ok]))
  = flat_map (fun _ => retry_refused_events cfg) fails
    ++ retry_ready_events cfg
    ++ flat_map (republish_events cfg) (deliveries ok)
    ++ retry_ending_events ok
  /\ outcome (retry_dead_messages cfg (fails ++ [ok])) = loop_outcome ok
  /\ published (trace (retry_dead_messages cfg (fails ++ [ok])))
     = map (fun d => (EmptyString, POSTGRES_QUEUE cfg, d_body d))
         (deliveries ok)
  /\ acked (trace (retry_dead_messages cfg (fails ++ [ok])))
     = map d_tag (deliveries ok)
  /\ sleeps (trace (retry_dead_messages cfg (fails ++ [ok])))
     = repeat 5%Z (length fails) ++ sleeps (retry_ending_events ok).
Proof.
  intros Hfails Hok.
  assert (Hrun : retry_dead_messages cfg (fails ++ [ok]) init
                 = (loop_outcome ok,
                    mkWorld
                      (flat_map (fun _ => retry_refused_events cfg) fails
                       ++ retry_ready_events cfg
                       ++ flat_map (republish_events cfg) (deliveries ok)
                       ++ retry_ending_events ok)
                      NoConnection)).
  { rewrite (retry_messages_refused _ _ _ _ Hfails).
    cbn [retry_dead_messages]. unfold bind at 1.
    rewrite (retry_iteration_accepted _ _ _ Hok).
    cbn [events connection init app].
    unfold loop_outcome.
    destruct (ending ok) as [e|];
      [destruct (isinstance e AMQPConnectionError)|]; reflexivity. }
  unfold trace, outcome. rewrite Hrun. cbn [fst snd events].
  destruct (retry_refused_quiet cfg fails) as (Hp & Ha & Hs).
  assert (Hend : published (retry_ending_events ok) = []
                 /\ acked (retry_ending_events ok) = []).
  { unfold retry_ending_events.
    destruct (ending ok) as [e|];
      [destruct (isinstance e AMQPConnectionError)|]; split; reflexivity. }
  destruct Hend as [Hep Hea].
  split; [reflexivity|]. split; [reflexivity|].
  rewrite !published_app, !acked_app, !sleeps_app, Hp, Ha, Hs, Hep, Hea.
  rewrite published_republish, acked_republish, sleeps_republish.
  cbn [app]. rewrite !app_nil_r. repeat split.
Qed.

(** One refusal, then two dead letters and a lost connection. *)
Lemma two_dead_letters_republished :
  acked (trace (retry_dead_messages default_config
                  ([refused_attempt]
                   ++ [quiet_attempt [rejected_delivery; poison_delivery]
                         (Some AMQPConnectionError)])))
  = [1%N; 3%N].
Proof.
  exact (proj1 (proj2 (proj2 (proj2
           (retry_dead_messages_run default_config [refused_attempt]
              (quiet_attempt [rejected_delivery; poison_delivery]
                 (Some AMQPConnectionError))
              (Forall_cons _ (refused_attempt_refused _) (Forall_nil _))
              (fun e => eq_refl)))))).
Defined.

(** ** Deliveries in order *)

Lemma callback_acked cfg E body tag :
  acked (trace (callback cfg E body tag))
  = if existsb is_ack (trace (callback cfg E body tag)) then [tag] else [].
Proof. run_callback; reflexivity. Qed.

Lemma callback_ack_means_done cfg E body tag :
  existsb is_ack (trace (callback cfg E body tag)) = true ->
  commit_result E = None
  /\ outcome (callback cfg E body tag) = Return tt.
Proof.
  run_callback; intros H; try discriminate H; split;
    first [assumption | reflexivity].
Qed.

Lemma dispatch_primary cfg ds w :
  events (snd (dispatch (primary_callback cfg) ds w))
  = events w ++ flat_map (fun d => trace (primary_callback cfg d))
                  (processed (primary_callback cfg) ds)
  /\ fst (dispatch (primary_callback cfg) ds w)
     = outcome (dispatch (primary_callback cfg) ds).
Proof.
  revert w. induction ds as [|d rest IH]; intros w.
  - cbn. rewrite app_nil_r. split; reflexivity.
  - cbn [dispatch processed]. unfold outcome, bind.
    destruct (callback_frame cfg (d_env d) (d_body d) (d_tag d) w)
      as [Hf He].
    fold (primary_callback cfg d) in Hf, He.
    destruct (primary_callback cfg d w) as [r1 w1] eqn:Hw.
    destruct (primary_callback cfg d init) as [r0 w0] eqn:H0.
    unfold outcome, trace in *. rewrite H0 in *. cbn [fst snd] in *.
    subst r1. destruct r0 as [[]|e]; cbn [fst snd flat_map];
      rewrite ?H0; cbn [snd].
    + destruct (IH w1) as [IH1 IH2]. destruct (IH w0) as [IH3 IH4].
      rewrite IH1, IH2, IH4, He, <- app_assoc. split; reflexivity.
    + rewrite He, app_nil_r. split; reflexivity.
Qed.

Lemma processed_prefix (cb : delivery -> M unit) ds :
  exists rest, ds = processed cb ds ++ rest.
Proof.
  induction ds as [|d ds [rest IH]]; [exists []; reflexivity|].
  cbn [processed]. destruct (outcome (cb d)).
  - exists rest. cbn. rewrite <- IH. reflexivity.
  - exists ds. reflexivity.
Qed.

Lemma dispatch_outcome cfg ds :
  (outcome (dispatch (primary_callback cfg) ds) = Return tt ->
   processed (primary_callback cfg) ds = ds)
  /\ (forall e,
        outcome (dispatch (primary_callback cfg) ds) = Raise e ->
        exists pre d,
          processed (primary_callback cfg) ds = pre ++ [d]
          /\ outcome (primary_callback cfg d) = Raise e).
Proof.
  induction ds as [|d rest [IH1 IH2]].
  - split; [reflexivity | intros e H; discriminate H].
  - unfold outcome in *. cbn [dispatch processed]. unfold bind.
    destruct (primary_callback cfg d init) as [[[]|e0] w0] eqn:H0;
      unfold outcome; rewrite H0; cbn [fst].
    + rewrite (proj2 (dispatch_primary cfg rest w0)). unfold outcome.
      split.
      * intros H. rewrite (IH1 H). reflexivity.
      * intros e H. destruct (IH2 e H) as (pre & d' & Hp & Hd).
        exists (d :: pre), d'. rewrite Hp. split; [reflexivity | exact Hd].
    + split; [intros H; discriminate H|].
      intros e H. injection H as <-. exists [], d.
      split; [reflexivity|]. unfold outcome. rewrite H0. reflexivity.
Qed.

(** X19: [start_consuming] hands the deliveries to [callback] one after the
    other and stops at the first whose callback raises, which is the last
    one touched; each delivery is acknowledged at most once, with its own
    tag, in delivery order, only if its commit returned, and a delivery
    whose callback raises is not acknowledged. *)
Theorem deliveries_in_order cfg ds :
  trace (dispatch (primary_callback cfg) ds)
  = flat_map (fun d => trace (primary_callback cfg d))
      (processed (primary_callback cfg) ds)
  /\ acked (trace (dispatch (primary_callback cfg) ds))
     = map d_tag (filter (acknowledges cfg)
                    (processed (primary_callback cfg) ds))
  /\ (exists rest, ds = processed (primary_callback cfg) ds ++ rest)
  /\ (outcome (dispatch (primary_callback cfg) ds) = Return tt ->
      processed (primary_callback cfg) ds = ds)
  /\ (forall e,
        outcome (dispatch (primary_callback cfg) ds) = Raise e ->
        exists pre d,
          processed (primary_callback cfg) ds = pre ++ [d]
          /\ outcome (primary_callback cfg d) = Raise e
          /\ acknowledges cfg d = false)
  /\ (forall d,
        acknowledges cfg d = true ->
        commit_result (d_env d) = None
        /\ outcome (primary_callback cfg d) = Return tt).
Proof.
  assert (Htrace : trace (dispatch (primary_callback cfg) ds)
                   = flat_map (fun d => trace (primary_callback cfg d))
                       (processed (primary_callback cfg) ds))
    by exact (proj1 (dispatch_primary cfg ds init)).
  assert (Hack : forall d,
             acknowledges cfg d = true ->
             commit_result (d_env d) = None
             /\ outcome (primary_callback cfg d) = Return tt)
    by (intros d; apply callback_ack_means_done).
  split; [exact Htrace|]. split; [|split; [|split; [|split]]].
  - rewrite Htrace. clear Htrace.
    induction (processed (primary_callback cfg) ds) as [|d l IH];
      [reflexivity|].
    cbn [flat_map filter]. rewrite acked_app, IH.
    unfold acknowledges, primary_callback. rewrite callback_acked.
    destruct (existsb is_ack
                (trace (callback cfg (d_env d) (d_body d) (d_tag d))));
      reflexivity.
  - apply processed_prefix.
  - exact (proj1 (dispatch_outcome cfg ds)).
  - intros e H. destruct (proj2 (dispatch_outcome cfg ds) e H)
      as (pre & d & Hp & Hd).
    exists pre, d. repeat split; try assumption.
    destruct (acknowledges cfg d) eqn:Ha; [|reflexivity].
    destruct (Hack d Ha) as [_ Hret]. congruence.
  - exact Hack.
Qed.

(** A rejected insert, an accepted one, a body that is a list, and one
    more: the third ends consumption, only the second is acknowledged. *)
Lemma poison_delivery_stops_consumption :
  acked (trace (dispatch (primary_callback default_config)
                  [rejected_delivery; accepted_delivery; poison_delivery;
                   accepted_delivery]))
  = [2%N].
Proof.
  exact (proj1 (proj2
           (deliveries_in_order default_config
              [rejected_delivery; accepted_delivery; poison_delivery;
               accepted_delivery]))).
Defined.

(** X20: [callback] acknowledges a delivery exactly when the body decodes
    to an object, a connection and a cursor are obtained, the insert of the
    projected columns and values returns and the commit returns; any
    failure on the way leaves the delivery unacknowledged. *)
Theorem callback_acks_iff cfg E body tag :
  existsb is_ack (trace (callback cfg E body tag)) = true <->
  exists d cols vals,
    json_loads E body = Return (VDict d)
    /\ connect_result E = None
    /\ cursor_result E = None
    /\ callback_projection (VDict d) = Return (cols, vals)
    /\ execute_result E (callback_query cfg cols vals) vals = None
    /\ commit_result E = None.
Proof.
  split.
  - unfold callback. run_callback; intros H; try discriminate H.
    match goal with
    | Hg : py_get ?m "From" = Return _,
      Hp : callback_projection ?m = Return ?p |- _ =>
        destruct (is_dict m) eqn:Hd;
        [ apply is_dict_true in Hd; destruct Hd as [d ->]
        | rewrite (py_get_not_dict _ _ Hd) in Hg; discriminate Hg ];
        destruct p as [cols vals]; cbn [fst snd] in *;
        exists d, cols, vals; repeat split; assumption
    end.
  - intros (d & cols & vals & Hj & Hc & Hcur & Hp & Hex & Hcom).
    unfold trace, callback.
    rewrite (callback_with_success cfg E callback_projection body tag
               (VDict d) _ cols vals Hj (py_get_dict d "From") Hc Hcur Hp
               (callback_projection_arity _ _ _ Hp) Hex Hcom).
    reflexivity.
Qed.

(** The sample SMS on a store that rejects the insert: not acknowledged. *)
Lemma rejected_sms_not_acknowledged :
  existsb is_ack
    (trace (callback default_config
              (rejecting_env (Return sms_message) IntegrityError)
              sms_body 1)) <> true.
Proof.
  intros H.
  destruct (proj1 (callback_acks_iff default_config
                     (rejecting_env (Return sms_message) IntegrityError)
                     sms_body 1) H)
    as (d & cols & vals & _ & _ & _ & _ & Hex & _).
  discriminate Hex.
Defined.

(** ** The scoped connection, event by event *)

(** X21: with the connection obtained, a [with get_db_connection()] block
    adds to what its body did, in this order: the error line [Error
    establishing database connection] if the body raised an [Exception]
    (whatever it was about; a [BaseException] such as [KeyboardInterrupt]
    is not logged), then [close] and its debug line if the body left the
    connection open, and nothing if the body had closed it; the outcome of
    the block is that of the body. *)
Theorem get_db_connection_trace E A (body : M A) w :
  keeps_connection body ->
  connect_result E = None ->
  events (snd (get_db_connection E body w))
  = events (snd (body (at_yield w)))
    ++ match fst (body (at_yield w)) with
       | Raise e =>
           if isinstance e Exception
           then [Log ERROR "Error establishing database connection: %s"]
           else []
       | Return _ => []
       end
    ++ match connection (snd (body (at_yield w))) with
       | Connection false =>
           [PgClose; Log DEBUG "Database connection closed."]
       | _ => []
       end
  /\ fst (get_db_connection E body w) = fst (body (at_yield w)).
Proof.
  intros Hkeep Hc. unfold_monad. cbn -[isinstance]. rewrite Hc.
  cbn -[isinstance]. fold (at_yield w).
  destruct (Hkeep (at_yield w) false eq_refl) as [c' Hc'].
  destruct (body (at_yield w)) as [[a|e] w2]; cbn -[isinstance] in *.
  - rewrite Hc'. destruct c'; cbn; rewrite <- ?app_assoc, ?app_nil_r;
      split; reflexivity.
  - destruct (isinstance e Exception); cbn; rewrite Hc'; destruct c'; cbn;
      rewrite <- ?app_assoc, ?app_nil_r; split; reflexivity.
Qed.

(** A body that raises [ValueError] after opening a cursor. *)
Lemma failing_body_logged_and_closed :
  events (snd (get_db_connection (healthy_env (Return sms_message))
                 failing_body init))
  = [PgConnect; PgCursor;
     Log ERROR "Error establishing database connection: %s";
     PgClose; Log DEBUG "Database connection closed."].
Proof.
  exact (proj1 (get_db_connection_trace (healthy_env (Return sms_message))
                  unit failing_body init failing_body_keeps_connection
                  eq_refl)).
Defined.
